(** * download.py: Google Maps preview-image scraper

    A shallow embedding of [download_social_preview_images] and of the
    library calls it is built from ([dict.get], [re.sub], [str.replace],
    [os.path.join], BeautifulSoup's [find] / [find_all], the [requests]
    session), followed by the properties of the consent handling, the
    image lookup, the per-record error isolation and the file-name
    sanitisation.

    Python values are the values [json.load] produces.  A [str] is kept as
    its UTF-8 bytes in a Rocq [string].  A [dict] is a finite map with
    string keys; the order in which a Python dict lists its keys is not
    kept.  The outside world (HTTP servers, the file system, the HTML
    parser) is a record of functions that answer from the history of
    effects performed so far, so cookies and any other server-side state
    are part of that history. *)

From Stdlib Require Import ZArith String Ascii List QArith Lia.
From stdpp Require Import base option list strings gmap.

Set Warnings "-register-all".

Local Open Scope string_scope.
Local Open Scope Z_scope.

(** ** Python values *)

(** What [json.load] returns.  [JNull] is Python's [None].  A float is kept
    as the rational it denotes (the non-standard literals NaN and Infinity
    are not represented). *)
Inductive json : Type :=
| JNull
| JBool (b : bool)
| JInt (z : Z)
| JFloat (q : Q)
| JStr (s : string)
| JArr (l : list json)
| JObj (m : gmap string json).

(** [bool(v)], as used by [if not google_maps_url]. *)
Definition truthy (v : json) : bool :=
  match v with
  | JNull => false
  | JBool b => b
  | JInt z => negb (z =? 0)
  | JFloat q => negb (Qnum q =? 0)
  | JStr s => negb (String.eqb s EmptyString)
  | JArr l => match l with [] => false | _ => true end
  | JObj m => negb (Nat.eqb (size m) 0)
  end.

(** [d.get(key)]: [None] when the key is absent. *)
Definition dict_get (d : gmap string json) (key : string) : json :=
  default JNull (d !! key).

(** [d.get(key, dflt)]. *)
Definition dict_get_default (d : gmap string json) (key : string)
    (dflt : json) : json :=
  default dflt (d !! key).

(** ** Strings *)

(** A UTF-8 continuation byte, [10xxxxxx]. *)
Definition is_continuation (c : ascii) : bool :=
  let n := nat_of_ascii c in (Nat.leb 128 n && Nat.ltb n 192)%bool.

Fixpoint drop_continuation (s : string) : string :=
  match s with
  | String c s' => if is_continuation c then drop_continuation s' else s
  | EmptyString => s
  end.

(** The characters (code points) of a [str], each as a one-character
    [str]: what iterating over a [str] yields. *)
Fixpoint code_points (s : string) : list string :=
  match s with
  | EmptyString => []
  | String c s' =>
      match s' with
      | String c2 _ =>
          if is_continuation c2 then
            match code_points s' with
            | x :: r => String c x :: r
            | [] => [String c EmptyString]
            end
          else String c EmptyString :: code_points s'
      | EmptyString => [String c EmptyString]
      end
  end.

(** The character class of the [re.sub] call of line 101: backslash,
    slash, star, question mark, colon, double quote, angle brackets,
    vertical bar. *)
Definition illegal_chars : list ascii :=
  [ascii_of_nat 92; "/"; "*"; "?"; ":"; ascii_of_nat 34; "<"; ">"; "|"]%char.

Definition is_illegal (c : ascii) : bool :=
  existsb (Ascii.eqb c) illegal_chars.

(** [re.sub(cls, empty, s)] for a character class [cls]: every character
    of the class is deleted. *)
Fixpoint re_sub_delete (cls : ascii -> bool) (s : string) : string :=
  match s with
  | EmptyString => EmptyString
  | String c s' =>
      if cls c then re_sub_delete cls s' else String c (re_sub_delete cls s')
  end.

(** [s.replace(a, b)] for one-character [a] and [b]. *)
Fixpoint str_replace (a b : ascii) (s : string) : string :=
  match s with
  | EmptyString => EmptyString
  | String c s' =>
      String (if Ascii.eqb c a then b else c) (str_replace a b s')
  end.

(** Line 101: delete the characters of the class, then turn every space
    into an underscore. *)
Definition sanitize (place_name : string) : string :=
  str_replace " " "_" (re_sub_delete is_illegal place_name).

Definition startswith_slash (s : string) : bool :=
  match s with String "/" _ => true | _ => false end.

Fixpoint endswith_slash (s : string) : bool :=
  match s with
  | EmptyString => false
  | String c EmptyString => Ascii.eqb c "/"
  | String _ s' => endswith_slash s'
  end.

(** [os.path.join(a, b)] of [posixpath]. *)
Definition os_path_join (a b : string) : string :=
  if startswith_slash b then b
  else if (String.eqb a EmptyString || endswith_slash a)%bool then a ++ b
  else a ++ "/" ++ b.

(** ** Regular expressions

    The one pattern of the program, ['https://consent.google.com/save'],
    is a sequence of literal characters and dots. *)
Inductive atom : Type :=
| Lit (c : ascii)
| Dot.

(** [re.compile] on patterns whose only metacharacter is the dot. *)
Fixpoint re_compile (p : string) : list atom :=
  match p with
  | EmptyString => []
  | String c p' =>
      (if Ascii.eqb c "." then Dot else Lit c) :: re_compile p'
  end.

Definition newline : ascii := ascii_of_nat 10.

(** Does the pattern match at the start of [s]?  A dot takes one character
    other than a newline, that is one UTF-8 lead byte and the continuation
    bytes after it. *)
Fixpoint match_here (p : list atom) (s : string) : bool :=
  match p with
  | [] => true
  | Lit c :: p' =>
      match s with
      | String c' s' => if Ascii.eqb c c' then match_here p' s' else false
      | EmptyString => false
      end
  | Dot :: p' =>
      match s with
      | String c' s' =>
          if Ascii.eqb c' newline then false
          else match_here p' (drop_continuation s')
      | EmptyString => false
      end
  end.

(** [pattern.search(s)]: a match at some offset. *)
Fixpoint re_search (p : list atom) (s : string) : bool :=
  (match_here p s
   || match s with
      | String _ s' => re_search p s'
      | EmptyString => false
      end)%bool.

Definition consent_pattern : list atom :=
  re_compile "https://consent.google.com/save".

(** ** BeautifulSoup trees *)

(** A parsed document: tags with their attribute dictionary and contents,
    and text.  The [BeautifulSoup] object itself is the root tag. *)
Inductive Node : Type :=
| Tag (name : string) (attrs : gmap string string) (contents : list Node)
| NavigableString (s : string).

(** [tag.get(key)]. *)
Definition tag_get (n : Node) (key : string) : option string :=
  match n with Tag _ a _ => a !! key | NavigableString _ => None end.

(** [tag.descendants]: document order. *)
Fixpoint descendants (n : Node) : list Node :=
  match n with
  | Tag _ _ cs => flat_map (fun c => c :: descendants c) cs
  | NavigableString _ => []
  end.

(** What an attribute is compared with in [find_all]: a string (equality)
    or a compiled pattern ([search]). *)
Inductive matcher : Type :=
| MatchStr (s : string)
| MatchRegex (p : list atom).

(** An absent attribute matches neither kind. *)
Definition attr_matches (m : matcher) (v : option string) : bool :=
  match v, m with
  | None, _ => false
  | Some s, MatchStr s' => String.eqb s s'
  | Some s, MatchRegex p => re_search p s
  end.

Definition node_matches (name : string) (filters : list (string * matcher))
    (n : Node) : bool :=
  match n with
  | Tag nm a _ =>
      (String.eqb nm name
       && forallb (fun f => attr_matches (snd f) (a !! fst f)) filters)%bool
  | NavigableString _ => false
  end.

(** [tag.find_all(name, attrs=filters)]. *)
Definition find_all (name : string) (filters : list (string * matcher))
    (root : Node) : list Node :=
  List.filter (node_matches name filters) (descendants root).

(** [tag.find(name, attrs=filters)]: the first result of [find_all]. *)
Definition find (name : string) (filters : list (string * matcher))
    (root : Node) : option Node :=
  head (find_all name filters root).

(** ** Exceptions *)

(** The exception classes that occur: Python's own, and those of
    [requests.exceptions].  [RequestException] stands for the subclasses
    that have no constructor of their own (a malformed URL, too many
    redirects, ...); [Timeout] covers connect and read timeouts.
    [UnicodeDecodeError] is what reading a file that is not valid UTF-8
    raises; like [ValueError] it is not a [JSONDecodeError]. *)
Inductive exn : Type :=
| FileNotFoundError
| JSONDecodeError
| UnicodeDecodeError
| OSError
| ValueError
| TypeError
| AttributeError
| KeyError
| Timeout
| ConnectionError
| HTTPError
| RequestException.

(** [isinstance(e, requests.exceptions.Timeout)]. *)
Definition is_Timeout (e : exn) : bool :=
  match e with Timeout => true | _ => false end.

(** [isinstance(e, requests.exceptions.RequestException)]. *)
Definition is_RequestException (e : exn) : bool :=
  match e with
  | Timeout | ConnectionError | HTTPError | RequestException => true
  | _ => false
  end.

Inductive Res (A : Type) : Type :=
| Ok (a : A)
| Raise (e : exn).
Arguments Ok {A} a.
Arguments Raise {A} e.

(** ** Effects *)

Record Response : Type := mkResponse {
  status_code : Z;
  text : string;
  content : string
}.

Inductive Method : Type := GET | POST.

Record Request : Type := mkRequest {
  method : Method;
  url : json;
  data : gmap string string;
  headers : gmap string string;
  timeout : Z
}.

(** One constructor per [print] call of the program, with the values that
    are formatted into the message. *)
Inductive Msg : Type :=
| MsgFileNotFound (path : string)
| MsgDecodeError (path : string)
| MsgLoaded (n : nat) (path : string)
| MsgSkipping (place_name : json)
| MsgProcessing (place_name : json)
| MsgConsentDetected
| MsgConsentSubmitted
| MsgSuccess (place_name : json)
| MsgWarningNoImage (place_name : json)
| MsgErrorTimeout (place_name : json)
| MsgErrorFailed (place_name : json) (e : exn)
| MsgSeparator
| MsgComplete
| MsgImagesSaved (dir : string)
| MsgJsonSaved (path : string).

Inductive FsOp : Type :=
| Makedirs (path : string)
| WriteBytes (path : string) (bytes : string)
| DumpJson (path : string) (value : json).

(** What the program does to the outside world, with the answer it got. *)
Inductive Event : Type :=
| EvFs (op : FsOp) (err : option exn)
| EvLoad (path : string) (r : Res json)
| EvPrint (m : Msg)
| EvRequest (r : Request) (o : Res Response).

(** The outside world.  Each function sees the history of events so far.
    [html_parser] is the parser on the markup it accepts: it always
    returns a tree, so markup on which the parser itself raises is not
    represented. *)
Record World : Type := mkWorld {
  http : list Event -> Request -> Res Response;
  fs : list Event -> FsOp -> option exn;
  load : list Event -> string -> Res json;
  html_parser : string -> Node
}.

(** A computation reads the history and returns a result or an exception,
    with the events it added. *)
Definition M (A : Type) : Type := list Event -> Res A * list Event.

Definition ret {A} (a : A) : M A := fun _ => (Ok a, []).

Definition raise {A} (e : exn) : M A := fun _ => (Raise e, []).

Definition bind {A B} (m : M A) (k : A -> M B) : M B :=
  fun h =>
    match m h with
    | (Ok a, ev) => let '(r, ev') := k a (h ++ ev)%list in (r, (ev ++ ev')%list)
    | (Raise e, ev) => (Raise e, ev)
    end.

Declare Scope py_scope.
Delimit Scope py_scope with py.
Notation "x <- m ;; k" := (bind m (fun x => k))
  (at level 100, m at next level, right associativity) : py_scope.
Notation "m ;; k" := (bind m (fun _ => k))
  (at level 100, right associativity) : py_scope.
Local Open Scope py_scope.

(** [try: body  except ...]: [handler e] is the [except] clause that
    catches [e], if any. *)
Definition try_except {A} (body : M A) (handler : exn -> option (M A)) : M A :=
  fun h =>
    match body h with
    | (Ok a, ev) => (Ok a, ev)
    | (Raise e, ev) =>
        match handler e with
        | Some k => let '(r, ev') := k (h ++ ev)%list in (r, (ev ++ ev')%list)
        | None => (Raise e, ev)
        end
    end.

Definition lift {A} (r : Res A) : M A := fun _ => (r, []).

(** [for x in xs: ...], collecting the items as the body leaves them. *)
Fixpoint for_each {A B} (body : A -> M B) (xs : list A) : M (list B) :=
  match xs with
  | [] => ret []
  | x :: rest =>
      y <- body x ;;
      ys <- for_each body rest ;;
      ret (y :: ys)
  end.

(** [len(v)]. *)
Definition py_len (v : json) : Res nat :=
  match v with
  | JArr l => Ok (length l)
  | JObj m => Ok (size m)
  | JStr s => Ok (length (code_points s))
  | _ => Raise TypeError
  end.

(** [iter(v)]: the items of a list, the keys of a dict, the characters of
    a string. *)
Definition py_iter (v : json) : Res (list json) :=
  match v with
  | JArr l => Ok l
  | JObj m => Ok (map (fun kv => JStr (fst kv)) (map_to_list m))
  | JStr s => Ok (map JStr (code_points s))
  | _ => Raise TypeError
  end.

(** [raise_for_status] of [requests]: client and server error codes. *)
Definition raise_for_status (r : Response) : M unit :=
  if ((400 <=? status_code r) && (status_code r <? 600))%bool
  then raise HTTPError else ret tt.

(** [tag[key]]. *)
Definition tag_getitem (n : Node) (key : string) : M string :=
  match tag_get n key with
  | Some v => ret v
  | None => raise KeyError
  end.

Definition output_dir : string := "place_images".
Definition json_output_path : string := "places_with_images.json".

(** The headers of [session.headers.update] (lines 34-37). *)
Definition session_headers : gmap string string :=
  <["User-Agent" := "Mozilla/5.0 (Windows NT 10.0; Win64; x64) AppleWebKit/537.36 (KHTML, like Gecko) Chrome/91.0.4472.124 Safari/537.36"]>
  (<["Accept-Language" := "en-US,en;q=0.9,it;q=0.8"]> ∅).

(** Lines 71-75: the form fields, a later input replacing an earlier one of
    the same name. *)
Definition add_input (form_data : gmap string string) (input_tag : Node)
    : gmap string string :=
  match tag_get input_tag "name" with
  | Some name =>
      if String.eqb name EmptyString then form_data
      else <[name := default EmptyString (tag_get input_tag "value")]> form_data
  | None => form_data
  end.

Definition collect_form_data (form_to_submit : Node) : gmap string string :=
  fold_left add_input (find_all "input" [] form_to_submit) ∅.

(** Line 96: [find(itemprop=image) or find(property=og:image)]; a tag is
    always true. *)
Definition find_image_tag (soup : Node) : option Node :=
  match find "meta" [("itemprop", MatchStr "image")] soup with
  | Some t => Some t
  | None => find "meta" [("property", MatchStr "og:image")] soup
  end.

(** Line 101 on a Python value: [re.sub] raises [TypeError] on anything
    but a string. *)
Definition sanitized_name_of (place_name : json) : M string :=
  match place_name with
  | JStr s => ret (sanitize s)
  | _ => raise TypeError
  end.

Section Program.
Variable w : World.

Definition print (m : Msg) : M unit := fun _ => (Ok tt, [EvPrint m]).

Definition send (r : Request) : M Response :=
  fun h => let o := http w h r in (o, [EvRequest r o]).

Definition fs_do (op : FsOp) : M unit :=
  fun h =>
    match fs w h op with
    | None => (Ok tt, [EvFs op None])
    | Some e => (Raise e, [EvFs op (Some e)])
    end.

Definition json_load (path : string) : M json :=
  fun h => let o := load w h path in (o, [EvLoad path o]).

(** [session.get(url, timeout=15)] and [session.post(url, data=d,
    timeout=15)]. *)
Definition session_get (u : json) : M Response :=
  send (mkRequest GET u ∅ session_headers 15).

Definition session_post (u : string) (d : gmap string string) : M Response :=
  send (mkRequest POST (JStr u) d session_headers 15).

Definition BeautifulSoup (markup : string) : Node := html_parser w markup.

(** Lines 51-93: the page on which the image is looked up. *)
Definition fetch_final_soup (google_maps_url place_name : json) : M Node :=
  print (MsgProcessing place_name) ;;
  initial_response <- session_get google_maps_url ;;
  raise_for_status initial_response ;;
  let soup := BeautifulSoup (text initial_response) in
  let consent_forms :=
    find_all "form" [("action", MatchRegex consent_pattern)] soup in
  match last consent_forms with
  | Some form_to_submit =>
      print MsgConsentDetected ;;
      form_action <- tag_getitem form_to_submit "action" ;;
      let form_data := collect_form_data form_to_submit in
      consent_post_response <- session_post form_action form_data ;;
      raise_for_status consent_post_response ;;
      print MsgConsentSubmitted ;;
      final_response <- session_get google_maps_url ;;
      raise_for_status final_response ;;
      ret (BeautifulSoup (text final_response))
  | None => ret soup
  end.

(** The [else] branch of lines 113-115. *)
Definition image_not_found (item : gmap string json) (place_name : json)
    : M json :=
  print (MsgWarningNoImage place_name) ;;
  ret (JObj (<["image" := JNull]> item)).

(** Lines 99-112. *)
Definition download_image (item : gmap string json) (place_name : json)
    (image_url : string) : M json :=
  sanitized_name <- sanitized_name_of place_name ;;
  let image_filename := sanitized_name ++ ".jpg" in
  let image_path := os_path_join output_dir image_filename in
  image_response <- session_get (JStr image_url) ;;
  raise_for_status image_response ;;
  fs_do (WriteBytes image_path (content image_response)) ;;
  print (MsgSuccess place_name) ;;
  ret (JObj (<["image" := JStr image_path]> item)).

(** Lines 96-115. *)
Definition locate_and_download (soup : Node) (item : gmap string json)
    (place_name : json) : M json :=
  match find_image_tag soup with
  | Some image_tag =>
      match tag_get image_tag "content" with
      | Some c =>
          if String.eqb c EmptyString
          then image_not_found item place_name
          else download_image item place_name c
      | None => image_not_found item place_name
      end
  | None => image_not_found item place_name
  end.

(** The [except] clauses of lines 117-122. *)
Definition on_request_error (item : gmap string json) (place_name : json)
    (e : exn) : option (M json) :=
  if is_Timeout e then
    Some (print (MsgErrorTimeout place_name) ;;
          ret (JObj (<["image" := JNull]> item)))
  else if is_RequestException e then
    Some (print (MsgErrorFailed place_name e) ;;
          ret (JObj (<["image" := JNull]> item)))
  else None.

(** The body of the loop, lines 40-122: the record as the iteration
    leaves it.  Anything but a dict has no [get]. *)
Definition process_item (it : json) : M json :=
  match it with
  | JObj item =>
      let google_maps_url := dict_get item "Google_Maps" in
      let place_name :=
        dict_get_default item "Place_Name" (JStr "unknown_place") in
      if negb (truthy google_maps_url) then
        print (MsgSkipping place_name) ;;
        ret (JObj (<["image" := JNull]> item))
      else
        try_except
          (soup <- fetch_final_soup google_maps_url place_name ;;
           locate_and_download soup item place_name)
          (on_request_error item place_name)
  | _ => raise AttributeError
  end.

(** Lines 39-122 on whatever [json.load] returned: the items of a list
    are updated in place, a non-empty dict or string fails on its first
    item. *)
Definition process_all (loaded : json) : M json :=
  items <- lift (py_iter loaded) ;;
  items' <- for_each process_item items ;;
  ret (match loaded with JArr _ => JArr items' | _ => loaded end).

(** Lines 19-27: [None] stands for the early [return]. *)
Definition load_input (json_input_path : string) : M (option json) :=
  try_except
    (loaded <- json_load json_input_path ;; ret (Some loaded))
    (fun e =>
       match e with
       | FileNotFoundError =>
           Some (print (MsgFileNotFound json_input_path) ;; ret None)
       | JSONDecodeError =>
           Some (print (MsgDecodeError json_input_path) ;; ret None)
       | _ => None
       end).

Definition download_social_preview_images (json_input_path : string)
    : M unit :=
  fs_do (Makedirs output_dir) ;;
  loaded <- load_input json_input_path ;;
  match loaded with
  | None => ret tt
  | Some loaded =>
      n <- lift (py_len loaded) ;;
      print (MsgLoaded n json_input_path) ;;
      result <- process_all loaded ;;
      fs_do (DumpJson json_output_path result) ;;
      print MsgSeparator ;;
      print MsgComplete ;;
      print (MsgImagesSaved output_dir) ;;
      print (MsgJsonSaved json_output_path)
  end.

End Program.

(** ** Vocabulary of the properties *)

Definition get_request (u : json) : Request :=
  mkRequest GET u ∅ session_headers 15.

Definition post_request (u : string) (d : gmap string string) : Request :=
  mkRequest POST (JStr u) d session_headers 15.

(** The status codes on which [raise_for_status] raises. *)
Definition error_status (r : Response) : Prop :=
  400 <= status_code r < 600.

(** A request that failed: it raised an exception of [requests] (timeout,
    connection failure, ...) or it was answered with an error status. *)
Definition failed (e : Event) : Prop :=
  match e with
  | EvRequest _ (Raise x) => is_RequestException x = true
  | EvRequest _ (Ok r) => error_status r
  | _ => False
  end.

(** What a computation can add to the history, return, and raise. *)
Definition emits {A} (P : Event -> Prop) (m : M A) : Prop :=
  forall h r ev, m h = (r, ev) -> Forall P ev.

Definition returns {A} (Q : A -> Prop) (m : M A) : Prop :=
  forall h a ev, m h = (Ok a, ev) -> Q a.

Definition raises {A} (P : exn -> Prop) (m : M A) : Prop :=
  forall h e ev, m h = (Raise e, ev) -> P e.

(** A failed request makes the computation raise an exception of
    [requests]. *)
Definition fail_safe {A} (m : M A) : Prop :=
  forall h r ev, m h = (r, ev) -> Exists failed ev ->
    exists e, r = Raise e /\ is_RequestException e = true.

(** The display name a message is formatted with, if any. *)
Definition msg_place_name (m : Msg) : option json :=
  match m with
  | MsgSkipping n | MsgProcessing n | MsgSuccess n | MsgWarningNoImage n
  | MsgErrorTimeout n | MsgErrorFailed n _ => Some n
  | _ => None
  end.

(** The events of one iteration of the loop for a record whose display
    name is [place_name]: messages about that name, requests and image
    files. *)
Definition iteration_event (place_name : json) (e : Event) : Prop :=
  match e with
  | EvPrint m =>
      match msg_place_name m with
      | Some n => n = place_name
      | None => True
      end
  | EvRequest _ _ | EvFs (WriteBytes _ _) _ => True
  | _ => False
  end.

(** The events of the loop. *)
Definition loop_event (e : Event) : Prop :=
  match e with
  | EvPrint _ | EvRequest _ _ | EvFs (WriteBytes _ _) _ => True
  | _ => False
  end.

(** The answer to a request once [raise_for_status] has looked at it. *)
Definition checked (o : Res Response) : Res Response :=
  match o with
  | Ok r =>
      if ((400 <=? status_code r) && (status_code r <? 600))%bool
      then Raise HTTPError else Ok r
  | Raise e => Raise e
  end.

Definition is_request (e : Event) : bool :=
  match e with EvRequest _ _ => true | _ => false end.

(** The record [item] with its image field set, to the null marker or to
    a path in the output directory. *)
Definition image_set (item : gmap string json) (it' : json) : Prop :=
  exists v, it' = JObj (<["image" := v]> item) /\
    (v = JNull \/
     exists name, v = JStr (os_path_join output_dir (sanitize name ++ ".jpg"))).

(** What the loop does to one item. *)
Definition annotated (it it' : json) : Prop :=
  exists item, it = JObj item /\ image_set item it'.

(** The result of the loop once the body has handled [JObj item] and the
    rest of the loop has run. *)
Definition continue_with (it' : json) (ev : list Event)
    (rest : Res (list json) * list Event) : Res (list json) * list Event :=
  match rest with
  | (Ok ys, ev') => (Ok (it' :: ys), (ev ++ ev')%list)
  | (Raise e, ev') => (Raise e, (ev ++ ev')%list)
  end.

(** The message of lines 23 and 26. *)
Definition input_error_msg (e : exn) (path : string) : Msg :=
  match e with
  | JSONDecodeError => MsgDecodeError path
  | _ => MsgFileNotFound path
  end.

(** *** The consent form, in the words of the specification *)

Definition is_hidden_input (n : Node) : bool :=
  match tag_get n "type" with
  | Some ty => String.eqb ty "hidden"
  | None => false
  end.

(** The name/value pair an input contributes: none without a name. *)
Definition field_of (n : Node) : list (string * string) :=
  match tag_get n "name" with
  | Some name =>
      if String.eqb name EmptyString then []
      else [(name, default EmptyString (tag_get n "value"))]
  | None => []
  end.

(** The hidden-input name/value pairs of a form, in document order. *)
Definition hidden_fields (form : Node) : list (string * string) :=
  flat_map field_of (List.filter is_hidden_input (find_all "input" [] form)).

(** The mapping a list of pairs denotes when a later pair replaces an
    earlier one of the same name. *)
Definition field_mapping (l : list (string * string)) : gmap string string :=
  list_to_map (reverse l).

Definition is_post (e : Event) : bool :=
  match e with
  | EvRequest r _ => match method r with POST => true | GET => false end
  | _ => false
  end.

Definition is_get_of (u : string) (e : Event) : bool :=
  match e with
  | EvRequest r _ =>
      match method r, url r with
      | GET, JStr s => String.eqb s u
      | _, _ => false
      end
  | _ => false
  end.

Fixpoint after_first_post (ev : list Event) : list Event :=
  match ev with
  | [] => []
  | e :: ev' => if is_post e then ev' else after_first_post ev'
  end.

(** How many times the source URL is fetched after the consent form was
    posted. *)
Definition regets_after_post (u : string) (ev : list Event) : nat :=
  length (List.filter (is_get_of u) (after_first_post ev)).

(** The consent sequence as the specification words it: whenever the page
    fetched first has a matching form, one POST and then one more GET of
    the source URL. *)
Definition consent_sequence_as_specified (w : World)
    (item : gmap string json) (u : string) (h : list Event) : Prop :=
  forall r1,
    http w (h ++ [EvPrint (MsgProcessing
                   (dict_get_default item "Place_Name" (JStr "unknown_place")))])
      (get_request (JStr u)) = Ok r1 ->
    ~ error_status r1 ->
    find_all "form" [("action", MatchRegex consent_pattern)]
      (html_parser w (text r1)) <> [] ->
    let ev := snd (process_item w (JObj item) h) in
    length (List.filter is_post ev) = 1%nat /\ regets_after_post u ev = 1%nat.

(** The fatal input error as the specification words it: a message, no
    request, nothing done to the file system. *)
Definition input_error_as_specified (w : World) (path : string)
    (h : list Event) : Prop :=
  forall e,
    In (EvLoad path (Raise e)) (snd (download_social_preview_images w path h)) ->
    e = FileNotFoundError \/ e = JSONDecodeError ->
    let ev := snd (download_social_preview_images w path h) in
    (exists m, In (EvPrint m) ev) /\
    (forall req o, ~ In (EvRequest req o) ev) /\
    (forall op err, ~ In (EvFs op err) ev).

(** ** Sample pages and worlds *)

Module Sample.

Definition source_url : string := "http://x/a".
Definition image_url : string := "http://img/1.jpg".
Definition og_url : string := "http://img/og.jpg".
Definition accept_action : string := "https://consent.google.com/save?continue=a".
Definition reject_action : string := "https://consent.google.com/save?reject=1".

Definition document (cs : list Node) : Node := Tag "[document]" ∅ cs.

Definition input (ty nm v : string) : Node :=
  Tag "input" (<["type" := ty]> (<["name" := nm]> (<["value" := v]> ∅))) [].

Definition form (action : string) (cs : list Node) : Node :=
  Tag "form" (<["action" := action]> ∅) cs.

Definition meta (k v c : string) : Node :=
  Tag "meta" (<[k := v]> (<["content" := c]> ∅)) [].

Definition accept_form : Node :=
  form accept_action [input "hidden" "gl" "IT"; input "hidden" "set_eom" "true"].

Definition consent_markup : string :=
  "<form action='https://consent.google.com/save?reject=1'><input type='hidden' name='gl' value='IT'></form><form action='https://consent.google.com/save?continue=a'><input type='hidden' name='gl' value='IT'><input type='hidden' name='set_eom' value='true'></form>".

Definition consent_page : Node :=
  document [form reject_action [input "hidden" "gl" "IT"]; accept_form].

Definition place_markup : string :=
  "<meta property='og:image' content='http://img/og.jpg'><meta itemprop='image' content='http://img/1.jpg'>".

Definition place_page : Node :=
  document [meta "property" "og:image" og_url; meta "itemprop" "image" image_url].

Definition empty_content_markup : string :=
  "<meta itemprop='image' content=''><meta property='og:image' content='http://img/og.jpg'>".

Definition empty_content_page : Node :=
  document [meta "itemprop" "image" EmptyString; meta "property" "og:image" og_url].

(** A consent form with a text input next to the hidden one. *)
Definition search_markup : string :=
  "<form action='https://consent.google.com/save'><input type='hidden' name='gl' value='IT'><input type='text' name='q' value='pizza'></form>".

Definition search_form : Node :=
  form "https://consent.google.com/save"
    [input "hidden" "gl" "IT"; input "text" "q" "pizza"].

(** What [html.parser] makes of the sample markup. *)
Definition parser (markup : string) : Node :=
  if String.eqb markup consent_markup then consent_page
  else if String.eqb markup place_markup then place_page
  else if String.eqb markup empty_content_markup then empty_content_page
  else if String.eqb markup search_markup then document [search_form]
  else document [].

Definition posted (h : list Event) : bool := existsb is_post h.

Definition page (markup : string) : Response := mkResponse 200 markup EmptyString.

(** A server that shows [first] until a form has been posted and
    [place_markup] afterwards, answers the POST with [post_result] and
    the image request with [image_result]. *)
Definition server (first : string) (post_result image_result : Res Response)
    (h : list Event) (r : Request) : Res Response :=
  match method r, url r with
  | POST, _ => post_result
  | GET, JStr u =>
      if String.eqb u source_url then
        Ok (page (if posted h then place_markup else first))
      else if String.eqb u image_url then image_result
      else Raise ConnectionError
  | GET, _ => Raise RequestException
  end.

Definition world (first : string) (post_result image_result : Res Response)
    (loaded : Res json) : World :=
  mkWorld (server first post_result image_result)
          (fun _ _ => None) (fun _ _ => loaded) parser.

Definition accepted : Res Response := Ok (page EmptyString).
Definition jpeg : Res Response := Ok (mkResponse 200 EmptyString "JFIF").

Definition cafe : gmap string json :=
  <["Google_Maps" := JStr source_url]>
  (<["Place_Name" := JStr "Caffe Roma: bar?"]> (<["Rating" := JInt 5]> ∅)).

Definition nameless : gmap string json :=
  <["Google_Maps" := JStr source_url]> ∅.

Definition no_url : gmap string json :=
  <["Place_Name" := JStr "Nowhere"]> ∅.

Definition locations : json := JArr [JObj no_url; JObj cafe].

(** Consent page first, everything succeeds. *)
Definition happy : World := world consent_markup accepted jpeg (Ok locations).

(** No consent page. *)
Definition direct : World := world place_markup accepted jpeg (Ok locations).

(** The consent POST times out. *)
Definition post_times_out : World :=
  world consent_markup (Raise Timeout) jpeg (Ok locations).

(** The image server answers 404. *)
Definition image_missing : World :=
  world place_markup accepted (Ok (mkResponse 404 EmptyString EmptyString))
    (Ok locations).

(** The page has an image tag without content. *)
Definition empty_content : World :=
  world empty_content_markup accepted jpeg (Ok locations).

(** The consent form has a text input. *)
Definition with_text_input : World :=
  world search_markup accepted jpeg (Ok locations).

(** The input file does not exist. *)
Definition no_input : World :=
  world place_markup accepted jpeg (Raise FileNotFoundError).

End Sample.

(** ** Vocabulary of the further properties *)

Definition is_dict (v : json) : bool :=
  match v with JObj _ => true | _ => false end.

Definition is_str (v : json) : bool :=
  match v with JStr _ => true | _ => false end.

Definition is_list (v : json) : bool :=
  match v with JArr _ => true | _ => false end.

(** Line 41: the display name of a record. *)
Definition place_name_of (item : gmap string json) : json :=
  dict_get_default item "Place_Name" (JStr "unknown_place").

(** Lines 101-103: the path of the image file of a display name. *)
Definition image_path_of (name : string) : string :=
  os_path_join output_dir (sanitize name ++ ".jpg").

(** A character that [sanitize] keeps as it is. *)
Definition kept_char (c : ascii) : bool :=
  (negb (is_illegal c) && negb (Ascii.eqb c " "))%bool.

Definition count_requests (ev : list Event) : nat :=
  length (List.filter is_request ev).

Definition count_posts (ev : list Event) : nat :=
  length (List.filter is_post ev).

Definition is_file_event (e : Event) : bool :=
  match e with EvFs _ _ => true | _ => false end.

(** How every request of the session is sent: with the session headers
    and the timeout of 15 seconds; a POST only to an action that matches
    the consent pattern, a GET without form data. *)
Definition session_request (e : Event) : Prop :=
  match e with
  | EvRequest req _ =>
      timeout req = 15 /\ headers req = session_headers /\
      match method req with
      | POST =>
          exists action, url req = JStr action /\
            re_search consent_pattern action = true
      | GET => data req = ∅
      end
  | _ => True
  end.

(** The message of the except clauses, lines 118 and 121. *)
Definition error_msg (place_name : json) (e : exn) : Msg :=
  if is_Timeout e then MsgErrorTimeout place_name
  else MsgErrorFailed place_name e.

(** What lines 117-122 make of an exception raised in the try after the
    events [ev]: an exception of requests is reported and the record gets
    the null marker; any other exception goes on. *)
Definition caught (item : gmap string json) (place_name : json) (e : exn)
    (ev : list Event) : Res json * list Event :=
  if is_RequestException e then
    (Ok (JObj (<["image" := JNull]> item)),
     (ev ++ [EvPrint (error_msg place_name e)])%list)
  else (Raise e, ev).

(** The exception a failed request ends in: its own, or the HTTPError of
    [raise_for_status]. *)
Definition exception_of (o : Res Response) : exn :=
  match o with
  | Raise e => e
  | Ok _ => HTTPError
  end.

(** Lines 96-99: the image URL of a page, if it has a usable one. *)
Definition usable_image_url (soup : Node) : option string :=
  match find_image_tag soup with
  | Some image_tag =>
      match tag_get image_tag "content" with
      | Some c => if String.eqb c EmptyString then None else Some c
      | None => None
      end
  | None => None
  end.

(** All bytes are UTF-8 continuation bytes. *)
Fixpoint all_continuation (s : string) : bool :=
  match s with
  | EmptyString => true
  | String c s' => (is_continuation c && all_continuation s')%bool
  end.

(** The invariant of the image field as the specification words it:
    whatever happens, the iteration leaves the record with the field. *)
Definition image_field_as_specified (w : World) (item : gmap string json)
    (h : list Event) : Prop :=
  exists it' ev,
    process_item w (JObj item) h = (Ok it', ev) /\ image_set item it'.

(** The fatal input error as the specification words it, for any failure
    to read or parse the input file: a message, no request, no file
    written. *)
Definition input_failure_as_specified (w : World) (path : string)
    (h : list Event) : Prop :=
  forall e,
    In (EvLoad path (Raise e)) (snd (download_social_preview_images w path h)) ->
    let ev := snd (download_social_preview_images w path h) in
    (exists m, In (EvPrint m) ev) /\
    (forall req o, ~ In (EvRequest req o) ev) /\
    (forall p v err, ~ In (EvFs (DumpJson p v) err) ev) /\
    (forall p b err, ~ In (EvFs (WriteBytes p b) err) ev).

(** The events of a run up to the loop. *)
Definition loaded_events (path : string) (loaded : json) (n : nat)
    : list Event :=
  [EvFs (Makedirs output_dir) None; EvLoad path (Ok loaded);
   EvPrint (MsgLoaded n path)].

(** The four messages that end a run. *)
Definition final_messages : list Event :=
  [EvPrint MsgSeparator; EvPrint MsgComplete;
   EvPrint (MsgImagesSaved output_dir); EvPrint (MsgJsonSaved json_output_path)].

(** The page has a meta tag whose attribute [k] is [v]. *)
Definition has_meta (k v : string) (soup : Node) : Prop :=
  exists a cs, In (Tag "meta" a cs) (descendants soup) /\ a !! k = Some v.

Module MoreSamples.

(** A page with an og:image tag only, nested in the head. *)
Definition og_only_markup : string :=
  "<html><head><meta property='og:image' content='http://img/og.jpg'></head></html>".

Definition og_only_page : Node :=
  Sample.document
    [Tag "html" ∅
       [Tag "head" ∅ [Sample.meta "property" "og:image" Sample.og_url]]].

(** A page without image tags. *)
Definition plain_markup : string :=
  "<html><head><meta name='viewport' content='width=device-width'></head></html>".

Definition plain_page : Node :=
  Sample.document
    [Tag "html" ∅
       [Tag "head" ∅ [Sample.meta "name" "viewport" "width=device-width"]]].

(** A consent form with a repeated name, an input without a name and one
    without a value. *)
Definition repeated_form : Node :=
  Sample.form "https://consent.google.com/save"
    [Sample.input "hidden" "gl" "IT";
     Tag "input" (<["type" := "submit"]> (<["value" := "Accept all"]> ∅)) [];
     Tag "input" (<["type" := "hidden"]> (<["name" := "bl"]> ∅)) [];
     Sample.input "hidden" "gl" "DE"].

Definition parser (markup : string) : Node :=
  if String.eqb markup og_only_markup then og_only_page
  else if String.eqb markup plain_markup then plain_page
  else Sample.parser markup.

(** The server of [Sample], which also serves the og:image URL. *)
Definition server (first : string) (h : list Event) (r : Request)
    : Res Response :=
  match method r, url r with
  | GET, JStr u =>
      if String.eqb u Sample.og_url then Sample.jpeg
      else Sample.server first Sample.accepted Sample.jpeg h r
  | _, _ => Sample.server first Sample.accepted Sample.jpeg h r
  end.

Definition world (first : string) (loaded : json) : World :=
  mkWorld (server first) (fun _ _ => None) (fun _ _ => Ok loaded) parser.

Definition og_only : World := world og_only_markup Sample.locations.

Definition plain : World := world plain_markup Sample.locations.

(** A record whose display name is null. *)
Definition null_name : gmap string json :=
  <["Place_Name" := JNull]> Sample.nameless.

(** A record whose source URL is the number zero. *)
Definition zero_url : gmap string json :=
  <["Google_Maps" := JInt 0]> Sample.no_url.

(** An input list with an item that is not a record. *)
Definition with_string_item : World :=
  world Sample.place_markup (JArr [JObj Sample.cafe; JStr "oops"]).

(** An input file that holds an empty object instead of a list. *)
Definition empty_object : World :=
  world Sample.place_markup (JObj ∅).

Definition consent_then_place : World :=
  world Sample.consent_markup Sample.locations.

(** A world in which the image file cannot be written. *)
Definition disk_full : World :=
  mkWorld (server Sample.place_markup)
          (fun _ op =>
             match op with WriteBytes _ _ => Some OSError | _ => None end)
          (fun _ _ => Ok Sample.locations) parser.

(** An input file that is not valid UTF-8: reading it in [json.load]
    raises UnicodeDecodeError. *)
Definition not_utf8 : World :=
  mkWorld (server Sample.place_markup) (fun _ _ => None)
          (fun _ _ => Raise UnicodeDecodeError) parser.

End MoreSamples.

(** * Properties *)

(** ** Rules for running computations *)

Section Rules.
Context {A B : Type}.
Implicit Types (m : M A) (k : A -> M B).

Lemma bind_ok m k h a ev :
  m h = (Ok a, ev) ->
  bind m k h =
    (fst (k a (h ++ ev)%list), (ev ++ snd (k a (h ++ ev)%list))%list).
Proof.
  intros Hm. unfold bind. rewrite Hm.
  destruct (k a (h ++ ev)%list); reflexivity.
Qed.

Lemma bind_raise m k h e ev :
  m h = (Raise e, ev) -> bind m k h = (Raise e, ev).
Proof. intros Hm. unfold bind. rewrite Hm. reflexivity. Qed.

(** The two ways a sequence can have run. *)
Lemma bind_inv m k h r ev :
  bind m k h = (r, ev) ->
  (exists e, m h = (Raise e, ev) /\ r = Raise e) \/
  (exists a ev1 ev2,
      m h = (Ok a, ev1) /\ k a (h ++ ev1)%list = (r, ev2) /\
      ev = (ev1 ++ ev2)%list).
Proof.
  unfold bind. destruct (m h) as [[a|e] ev1].
  - destruct (k a (h ++ ev1)%list) as [r2 ev2] eqn:Hk.
    intros [= <- <-]. right. exists a, ev1, ev2. auto.
  - intros [= <- <-]. left. exists e. auto.
Qed.

Lemma emits_bind (P : Event -> Prop) m k :
  emits P m -> (forall a, emits P (k a)) -> emits P (bind m k).
Proof.
  intros Hm Hk h r ev Hrun.
  apply bind_inv in Hrun as [(e & Hrun & _)|(a & ev1 & ev2 & H1 & H2 & ->)].
  - eapply Hm, Hrun.
  - apply Forall_app. split; [eapply Hm, H1 | eapply Hk, H2].
Qed.

Lemma returns_bind (Q : B -> Prop) m k :
  (forall a, returns Q (k a)) -> returns Q (bind m k).
Proof.
  intros Hk h b ev Hrun.
  apply bind_inv in Hrun as [(e & _ & [=])|(a & ev1 & ev2 & _ & H2 & _)].
  eapply Hk, H2.
Qed.

Lemma raises_bind (P : exn -> Prop) m k :
  raises P m -> (forall a, raises P (k a)) -> raises P (bind m k).
Proof.
  intros Hm Hk h e ev Hrun.
  apply bind_inv in Hrun as [(e' & Hrun & [= <-])|(a & ev1 & ev2 & _ & H2 & _)].
  - eapply Hm, Hrun.
  - eapply Hk, H2.
Qed.

Lemma fail_safe_bind m k :
  fail_safe m -> (forall a, fail_safe (k a)) -> fail_safe (bind m k).
Proof.
  intros Hm Hk h r ev Hrun Hex.
  apply bind_inv in Hrun as [(e & Hrun & ->)|(a & ev1 & ev2 & H1 & H2 & ->)].
  - destruct (Hm _ _ _ Hrun Hex) as (e0 & [= ->] & He). eauto.
  - apply Exists_app in Hex as [Hex|Hex].
    + destruct (Hm _ _ _ H1 Hex) as (e & [=] & _).
    + eapply Hk; eauto.
Qed.
End Rules.

Lemma emits_ret {A} (P : Event -> Prop) (a : A) : emits P (ret a).
Proof. intros h r ev [= <- <-]. constructor. Qed.

Lemma emits_raise {A} (P : Event -> Prop) (e : exn) : emits P (@raise A e).
Proof. intros h r ev [= <- <-]. constructor. Qed.

Lemma emits_lift {A} (P : Event -> Prop) (x : Res A) : emits P (lift x).
Proof. intros h r ev [= <- <-]. constructor. Qed.

Lemma emits_print (P : Event -> Prop) msg :
  P (EvPrint msg) -> emits P (print msg).
Proof. intros HP h r ev [= <- <-]. repeat constructor. exact HP. Qed.

Lemma emits_send (P : Event -> Prop) w req :
  (forall o, P (EvRequest req o)) -> emits P (send w req).
Proof. intros HP h r ev [= <- <-]. repeat constructor. apply HP. Qed.

Lemma emits_fs_do (P : Event -> Prop) w op :
  (forall err, P (EvFs op err)) -> emits P (fs_do w op).
Proof.
  intros HP h r ev. unfold fs_do.
  destruct (fs w h op); intros [= <- <-]; repeat constructor; apply HP.
Qed.

Lemma emits_raise_for_status (P : Event -> Prop) resp :
  emits P (raise_for_status resp).
Proof.
  unfold raise_for_status.
  destruct (_ && _)%bool; [apply emits_raise | apply emits_ret].
Qed.

Lemma emits_try_except {A} (P : Event -> Prop) (body : M A) handler :
  emits P body ->
  (forall e k, handler e = Some k -> emits P k) ->
  emits P (try_except body handler).
Proof.
  intros Hb Hh h r ev. unfold try_except.
  destruct (body h) as [[a|e] ev1] eqn:Hbody.
  - intros [= <- <-]. eapply Hb, Hbody.
  - destruct (handler e) as [k|] eqn:Hk.
    + destruct (k (h ++ ev1)%list) as [r2 ev2] eqn:Hrun. intros [= <- <-].
      apply Forall_app. split; [eapply Hb, Hbody | eapply Hh; eauto].
    + intros [= <- <-]. eapply Hb, Hbody.
Qed.

Lemma emits_for_each {A B} (P : Event -> Prop) (body : A -> M B) xs :
  (forall x, emits P (body x)) -> emits P (for_each body xs).
Proof.
  intros Hb. induction xs as [|x xs IH]; simpl.
  - apply emits_ret.
  - apply emits_bind; [apply Hb|]. intros y.
    apply emits_bind; [apply IH|]. intros ys. apply emits_ret.
Qed.

Lemma returns_ret {A} (Q : A -> Prop) (a : A) : Q a -> returns Q (ret a).
Proof. intros HQ h a' ev [= <-]. exact HQ. Qed.

Lemma returns_raise {A} (Q : A -> Prop) (e : exn) : returns Q (@raise A e).
Proof. intros h a ev [=]. Qed.

Lemma raises_ret {A} (P : exn -> Prop) (a : A) : raises P (ret a).
Proof. intros h e ev [=]. Qed.

Lemma raises_print (P : exn -> Prop) msg : raises P (print msg).
Proof. intros h e ev [=]. Qed.

Lemma fail_safe_ret {A} (a : A) : fail_safe (ret a).
Proof. intros h r ev [= <- <-] Hex. inversion Hex. Qed.

Lemma fail_safe_raise {A} (e : exn) : fail_safe (@raise A e).
Proof. intros h r ev [= <- <-] Hex. inversion Hex. Qed.

Lemma fail_safe_print msg : fail_safe (print msg).
Proof.
  intros h r ev [= <- <-] Hex.
  apply Exists_cons in Hex as [[]|Hex]; inversion Hex.
Qed.

Lemma fail_safe_fs_do w op : fail_safe (fs_do w op).
Proof.
  intros h r ev. unfold fs_do.
  destruct (fs w h op); intros [= <- <-] Hex;
    apply Exists_cons in Hex as [[]|Hex]; inversion Hex.
Qed.

Lemma raise_for_status_ok resp h :
  ~ error_status resp -> raise_for_status resp h = (Ok tt, []).
Proof.
  unfold error_status, raise_for_status. intros Hok.
  destruct (400 <=? status_code resp) eqn:H1;
    destruct (status_code resp <? 600) eqn:H2; try reflexivity.
  exfalso. apply Hok. lia.
Qed.

Lemma raise_for_status_error resp h :
  error_status resp -> raise_for_status resp h = (Raise HTTPError, []).
Proof.
  unfold error_status, raise_for_status. intros [H1 H2].
  apply Z.leb_le in H1. apply Z.ltb_lt in H2. rewrite H1, H2. reflexivity.
Qed.

Lemma error_status_dec resp : {error_status resp} + {~ error_status resp}.
Proof.
  unfold error_status.
  destruct (Z_le_dec 400 (status_code resp));
    destruct (Z_lt_dec (status_code resp) 600); (left; lia) || (right; lia).
Qed.

(** A request followed by [raise_for_status]: the unit that turns a failed
    request into an exception. *)
Lemma fail_safe_checked {B} w req (k : Response -> M B) :
  (forall resp, fail_safe (k resp)) ->
  fail_safe (bind (send w req) (fun resp => bind (raise_for_status resp) (fun _ => k resp))).
Proof.
  intros Hk h r ev Hrun Hex.
  apply bind_inv in Hrun as [(e & Hrun & ->)|(resp & ev1 & ev2 & H1 & H2 & ->)].
  - injection Hrun as Ho <-.
    apply Exists_cons in Hex as [Hex|Hex]; [|inversion Hex].
    simpl in Hex. rewrite Ho in Hex. eauto.
  - injection H1 as Ho <-.
    destruct (error_status_dec resp) as [Herr|Hgood].
    + erewrite bind_raise in H2 by (apply raise_for_status_error, Herr).
      injection H2 as <- <-. eauto.
    + apply Exists_cons in Hex as [Hex|Hex].
      { simpl in Hex. rewrite Ho in Hex. contradiction. }
      apply bind_inv in H2 as [(e & H2 & _)|(u & ev3 & ev4 & H3 & H4 & ->)].
      * rewrite raise_for_status_ok in H2 by exact Hgood. discriminate.
      * rewrite raise_for_status_ok in H3 by exact Hgood.
        injection H3 as <- <-. eapply Hk; eauto.
Qed.

Lemma try_except_inv {A} (body : M A) handler h r ev :
  try_except body handler h = (r, ev) ->
  (exists a, body h = (Ok a, ev) /\ r = Ok a) \/
  (exists e, body h = (Raise e, ev) /\ handler e = None /\ r = Raise e) \/
  (exists e k ev1 ev2,
      body h = (Raise e, ev1) /\ handler e = Some k /\
      k (h ++ ev1)%list = (r, ev2) /\ ev = (ev1 ++ ev2)%list).
Proof.
  unfold try_except. destruct (body h) as [[a|e] ev1].
  - intros [= <- <-]. left. eauto.
  - destruct (handler e) as [k|] eqn:Hk.
    + destruct (k (h ++ ev1)%list) as [r2 ev2] eqn:Hrun. intros [= <- <-].
      right. right. exists e, k, ev1, ev2. auto.
    + intros [= <- <-]. right. left. eauto.
Qed.

Lemma returns_try_except {A} (Q : A -> Prop) (body : M A) handler :
  returns Q body ->
  (forall e k, handler e = Some k -> returns Q k) ->
  returns Q (try_except body handler).
Proof.
  intros Hb Hh h a ev Hrun.
  apply try_except_inv in Hrun
    as [(a' & Hrun & [= <-])|[(e & _ & _ & [=])|(e & k & ev1 & ev2 & _ & Hk & Hrun & _)]].
  - eapply Hb, Hrun.
  - eapply Hh; eauto.
Qed.

Lemma raises_try_except {A} (P : exn -> Prop) (body : M A) handler :
  (forall e, handler e = None -> P e) ->
  (forall e k, handler e = Some k -> raises P k) ->
  raises P (try_except body handler).
Proof.
  intros Hn Hh h x ev Hrun.
  apply try_except_inv in Hrun
    as [(a & _ & [=])|[(e & _ & Hnone & [= <-])|(e & k & ev1 & ev2 & _ & Hk & Hrun & _)]].
  - apply Hn, Hnone.
  - eapply Hh; eauto.
Qed.

Lemma for_each_cons {A B} (body : A -> M B) x xs h y ev :
  body x h = (Ok y, ev) ->
  for_each body (x :: xs) h =
    match for_each body xs (h ++ ev)%list with
    | (Ok ys, ev') => (Ok (y :: ys), (ev ++ ev')%list)
    | (Raise e, ev') => (Raise e, (ev ++ ev')%list)
    end.
Proof.
  intros Hx. simpl. erewrite bind_ok by exact Hx.
  unfold bind. destruct (for_each body xs (h ++ ev)%list) as [[ys|e] ev'];
    simpl; rewrite ?app_nil_r; reflexivity.
Qed.

Lemma for_each_returns {A B} (R : A -> B -> Prop) (body : A -> M B) xs :
  (forall x, returns (R x) (body x)) ->
  returns (Forall2 R xs) (for_each body xs).
Proof.
  intros Hb. induction xs as [|x xs IH]; simpl.
  - apply returns_ret. constructor.
  - intros h ys ev Hrun.
    apply bind_inv in Hrun as [(e & _ & [=])|(y & ev1 & ev2 & H1 & H2 & _)].
    apply bind_inv in H2 as [(e & _ & [=])|(ys' & ev3 & ev4 & H3 & H4 & _)].
    injection H4 as <- _. constructor; [eapply Hb, H1 | eapply IH, H3].
Qed.

(** ** The stages of one iteration *)

Section Stages.
Variable w : World.
Variable item : gmap string json.
Variable place_name : json.

Lemma on_request_error_some e k :
  on_request_error item place_name e = Some k ->
  is_RequestException e = true /\
  exists msg,
    k = bind (print msg) (fun _ => ret (JObj (<["image" := JNull]> item))).
Proof.
  unfold on_request_error.
  destruct (is_Timeout e) eqn:Ht.
  - intros [= <-]. split; [destruct e; done | eauto].
  - destruct (is_RequestException e); [|done]. intros [= <-]. eauto.
Qed.

Lemma on_request_error_none e :
  on_request_error item place_name e = None -> is_RequestException e = false.
Proof.
  unfold on_request_error.
  destruct (is_Timeout e); [done|]. destruct (is_RequestException e); done.
Qed.

Lemma handler_run msg h :
  bind (print msg) (fun _ => ret (JObj (<["image" := JNull]> item))) h =
    (Ok (JObj (<["image" := JNull]> item)), [EvPrint msg]).
Proof. reflexivity. Qed.

Lemma fail_safe_fetch u : fail_safe (fetch_final_soup w u place_name).
Proof.
  unfold fetch_final_soup, session_get, session_post.
  apply fail_safe_bind; [apply fail_safe_print|]. intros _.
  apply fail_safe_checked. intros r1.
  destruct (last _) as [form|]; [|apply fail_safe_ret].
  apply fail_safe_bind; [apply fail_safe_print|]. intros _.
  apply fail_safe_bind.
  { unfold tag_getitem. destruct (tag_get form "action");
      [apply fail_safe_ret | apply fail_safe_raise]. }
  intros action. apply fail_safe_checked. intros r2.
  apply fail_safe_bind; [apply fail_safe_print|]. intros _.
  apply fail_safe_checked. intros r3. apply fail_safe_ret.
Qed.

Lemma fail_safe_not_found : fail_safe (image_not_found item place_name).
Proof.
  apply fail_safe_bind; [apply fail_safe_print|]. intros _. apply fail_safe_ret.
Qed.

Lemma fail_safe_download u : fail_safe (download_image w item place_name u).
Proof.
  unfold download_image, session_get.
  apply fail_safe_bind.
  { unfold sanitized_name_of. destruct place_name;
      apply fail_safe_raise || apply fail_safe_ret. }
  intros name. apply fail_safe_checked. intros resp.
  apply fail_safe_bind; [apply fail_safe_fs_do|]. intros _.
  apply fail_safe_bind; [apply fail_safe_print|]. intros _. apply fail_safe_ret.
Qed.

Lemma fail_safe_locate soup :
  fail_safe (locate_and_download w soup item place_name).
Proof.
  unfold locate_and_download.
  destruct (find_image_tag soup) as [t|]; [|apply fail_safe_not_found].
  destruct (tag_get t "content") as [c|]; [|apply fail_safe_not_found].
  destruct (String.eqb c EmptyString);
    [apply fail_safe_not_found | apply fail_safe_download].
Qed.

Lemma returns_not_found :
  returns (image_set item) (image_not_found item place_name).
Proof.
  apply returns_bind. intros _. apply returns_ret.
  exists JNull. auto.
Qed.

Lemma returns_download u :
  returns (image_set item) (download_image w item place_name u).
Proof.
  unfold download_image. intros h a ev Hrun.
  apply bind_inv in Hrun as [(e & _ & [=])|(name & ev1 & ev2 & H1 & H2 & _)].
  unfold sanitized_name_of in H1.
  destruct place_name as [| | | |s| |]; try discriminate H1.
  injection H1 as <- <-.
  eapply (returns_bind (image_set item)); [|exact H2]. intros resp.
  do 3 (apply returns_bind; intros ?). apply returns_ret.
  eexists. split; [reflexivity|]. right. eauto.
Qed.

Lemma returns_locate soup :
  returns (image_set item) (locate_and_download w soup item place_name).
Proof.
  unfold locate_and_download.
  destruct (find_image_tag soup) as [t|]; [|apply returns_not_found].
  destruct (tag_get t "content") as [c|]; [|apply returns_not_found].
  destruct (String.eqb c EmptyString);
    [apply returns_not_found | apply returns_download].
Qed.

Lemma emits_fetch (P : Event -> Prop) u :
  (forall req o, P (EvRequest req o)) ->
  P (EvPrint (MsgProcessing place_name)) ->
  P (EvPrint MsgConsentDetected) ->
  P (EvPrint MsgConsentSubmitted) ->
  emits P (fetch_final_soup w u place_name).
Proof.
  intros Hreq Hp Hd Hs.
  unfold fetch_final_soup, session_get, session_post.
  repeat first
    [ apply emits_ret | apply emits_raise_for_status
    | apply emits_print; assumption | apply emits_send; intros; apply Hreq
    | apply emits_bind; [|intros ?]
    | match goal with
      | |- emits _ (match ?x with _ => _ end) => destruct x
      | |- emits _ (tag_getitem ?n ?k) =>
          unfold tag_getitem; destruct (tag_get n k); [|apply emits_raise]
      end ].
Qed.

Lemma emits_locate (P : Event -> Prop) soup :
  (forall req o, P (EvRequest req o)) ->
  (forall path bytes err, P (EvFs (WriteBytes path bytes) err)) ->
  P (EvPrint (MsgSuccess place_name)) ->
  P (EvPrint (MsgWarningNoImage place_name)) ->
  emits P (locate_and_download w soup item place_name).
Proof.
  intros Hreq Hfs Hs Hw.
  unfold locate_and_download, image_not_found, download_image, session_get,
    sanitized_name_of.
  repeat first
    [ apply emits_ret | apply emits_raise | apply emits_raise_for_status
    | apply emits_print; assumption | apply emits_send; intros; apply Hreq
    | apply emits_fs_do; intros; apply Hfs
    | apply emits_bind; [|intros ?]
    | match goal with
      | |- emits _ (match ?x with _ => _ end) => destruct x
      | |- emits _ (if ?x then _ else _) => destruct x
      end ].
Qed.
End Stages.

Lemma iteration_event_loop place_name e :
  iteration_event place_name e -> loop_event e.
Proof. destruct e as [[]| | |]; simpl; auto. Qed.

Lemma emits_process_dict w item :
  emits (iteration_event (dict_get_default item "Place_Name" (JStr "unknown_place")))
    (process_item w (JObj item)).
Proof.
  simpl. destruct (negb _).
  - apply emits_bind; [apply emits_print; reflexivity|]. intros _.
    apply emits_ret.
  - apply emits_try_except.
    + apply emits_bind; [apply emits_fetch; done|]. intros soup.
      apply emits_locate; done.
    + intros e k Hk. unfold on_request_error in Hk.
      destruct (is_Timeout e); [|destruct (is_RequestException e); [|done]];
        injection Hk as <-;
        (apply emits_bind; [apply emits_print; reflexivity|]);
        intros _; apply emits_ret.
Qed.

Lemma emits_process_item w it : emits loop_event (process_item w it).
Proof.
  destruct it; try apply emits_raise.
  intros h r ev Hrun. eapply Forall_impl; [eapply emits_process_dict, Hrun|].
  apply iteration_event_loop.
Qed.

Lemma returns_process_item w item :
  returns (image_set item) (process_item w (JObj item)).
Proof.
  simpl. destruct (negb _).
  - apply returns_bind. intros _. apply returns_ret. exists JNull. auto.
  - apply returns_try_except.
    + apply returns_bind. intros soup. apply returns_locate.
    + intros e k Hk. apply on_request_error_some in Hk as (_ & msg & ->).
      apply returns_bind. intros _. apply returns_ret. exists JNull. auto.
Qed.

Lemma raises_process_item w item :
  raises (fun e => is_RequestException e = false) (process_item w (JObj item)).
Proof.
  simpl. destruct (negb _).
  - apply raises_bind; [apply raises_print|]. intros _. apply raises_ret.
  - apply raises_try_except.
    + apply on_request_error_none.
    + intros e k Hk. apply on_request_error_some in Hk as (_ & msg & ->).
      apply raises_bind; [apply raises_print|]. intros _. apply raises_ret.
Qed.

Lemma returns_process_annotated w it :
  returns (annotated it) (process_item w it).
Proof.
  destruct it; try apply returns_raise.
  intros h a ev Hrun. eexists. split; [reflexivity|].
  eapply returns_process_item, Hrun.
Qed.

(** A failed request anywhere in the iteration ends in the null marker. *)
Lemma failed_request_gives_null w item h r ev :
  process_item w (JObj item) h = (r, ev) ->
  Exists failed ev ->
  r = Ok (JObj (<["image" := JNull]> item)).
Proof.
  simpl. destruct (negb _).
  - intros [= <- <-] Hex.
    apply Exists_cons in Hex as [[]|Hex]; inversion Hex.
  - intros Hrun Hex.
    assert (Hbody : forall hb rb evb,
      bind (fetch_final_soup w (dict_get item "Google_Maps")
              (dict_get_default item "Place_Name" (JStr "unknown_place")))
        (fun soup => locate_and_download w soup item
              (dict_get_default item "Place_Name" (JStr "unknown_place")))
        hb = (rb, evb) ->
      Exists failed evb -> exists e, rb = Raise e /\ is_RequestException e = true).
    { apply fail_safe_bind; [apply fail_safe_fetch|].
      intros soup. apply fail_safe_locate. }
    apply try_except_inv in Hrun
      as [(a & Hrun & ->)|[(e & Hrun & Hnone & ->)|(e & k & ev1 & ev2 & Hrun & Hk & Hrun2 & ->)]].
    + destruct (Hbody _ _ _ Hrun Hex) as (e & [=] & _).
    + destruct (Hbody _ _ _ Hrun Hex) as (e' & [= <-] & He).
      apply on_request_error_none in Hnone. congruence.
    + apply on_request_error_some in Hk as (_ & msg & ->).
      rewrite handler_run in Hrun2. congruence.
Qed.

(** ** File names *)

Lemma sanitize_cons c s :
  sanitize (String c s) =
    if is_illegal c then sanitize s
    else String (if Ascii.eqb c " " then "_"%char else c) (sanitize s).
Proof. unfold sanitize. simpl. destruct (is_illegal c); reflexivity. Qed.

Lemma sanitize_keeps_legal s :
  re_sub_delete is_illegal (sanitize s) = sanitize s.
Proof.
  induction s as [|c s IH]; [reflexivity|].
  rewrite sanitize_cons. destruct (is_illegal c) eqn:Hc; [exact IH|].
  simpl. destruct (Ascii.eqb c " ") eqn:Hsp.
  - change (is_illegal "_") with false. cbv iota. now rewrite IH.
  - rewrite Hc. now rewrite IH.
Qed.

Lemma sanitize_has_no_space s :
  str_replace " " "_" (sanitize s) = sanitize s.
Proof.
  induction s as [|c s IH]; [reflexivity|].
  rewrite sanitize_cons. destruct (is_illegal c); [exact IH|].
  simpl. rewrite IH. destruct (Ascii.eqb c " ") eqn:Hsp.
  - reflexivity.
  - now rewrite Hsp.
Qed.

(** C8. Sanitising a name that is already sanitised leaves it unchanged:
    [sanitize] (delete the characters backslash, slash, star, question
    mark, colon, double quote, angle brackets and bar, then turn spaces
    into underscores) is idempotent on every string. *)
Theorem sanitize_idempotent (s : string) :
  sanitize (sanitize s) = sanitize s.
Proof.
  unfold sanitize at 1.
  now rewrite sanitize_keeps_legal, sanitize_has_no_space.
Qed.

Example sanitize_sample :
  sanitize "Caffe Roma: bar?" = "Caffe_Roma_bar".
Proof. reflexivity. Qed.

(** ** Records without a source URL *)

(** C3. A record whose source URL is absent or empty gets the null marker
    as its image field; the only event of that iteration is the message
    that the record is skipped, so no request is made; and the loop goes
    on with the next record. *)
Theorem missing_url_skipped (w : World) (item : gmap string json)
    (rest : list json) (h : list Event) :
  item !! "Google_Maps" = None \/
    item !! "Google_Maps" = Some (JStr EmptyString) ->
  let skipped := JObj (<["image" := JNull]> item) in
  let ev := [EvPrint (MsgSkipping
               (dict_get_default item "Place_Name" (JStr "unknown_place")))] in
  process_item w (JObj item) h = (Ok skipped, ev) /\
  for_each (process_item w) (JObj item :: rest) h =
    continue_with skipped ev (for_each (process_item w) rest (h ++ ev)%list).
Proof.
  intros Hurl skipped ev.
  assert (Hrun : process_item w (JObj item) h = (Ok skipped, ev)).
  { simpl. unfold dict_get. destruct Hurl as [-> | ->]; reflexivity. }
  split; [exact Hrun|].
  rewrite (for_each_cons _ _ _ _ _ _ Hrun). reflexivity.
Qed.

Lemma missing_url_skipped_witness :
  Sample.no_url !! "Google_Maps" = None /\
  process_item Sample.happy (JObj Sample.no_url) [] =
    (Ok (JObj (<["image" := JNull]> Sample.no_url)),
     [EvPrint (MsgSkipping (JStr "Nowhere"))]).
Proof.
  split; [reflexivity|].
  apply (missing_url_skipped Sample.happy Sample.no_url [] []).
  left. reflexivity.
Defined.

(** ** Failed requests *)

(** C4. When a request of a record (the first GET, the consent POST, the
    second GET or the image download) raises a timeout, a connection
    failure or another exception of requests, or is answered with an error
    status, the record gets the null marker and the loop goes on with the
    next record: the failure does not end the run. *)
Theorem request_failure_isolated (w : World) (item : gmap string json)
    (rest : list json) (h : list Event) (r : Res json) (ev : list Event) :
  process_item w (JObj item) h = (r, ev) ->
  Exists failed ev ->
  r = Ok (JObj (<["image" := JNull]> item)) /\
  for_each (process_item w) (JObj item :: rest) h =
    continue_with (JObj (<["image" := JNull]> item)) ev
      (for_each (process_item w) rest (h ++ ev)%list).
Proof.
  intros Hrun Hex.
  pose proof (failed_request_gives_null _ _ _ _ _ Hrun Hex) as ->.
  split; [reflexivity|].
  rewrite (for_each_cons _ _ _ _ _ _ Hrun). reflexivity.
Qed.

Lemma request_failure_isolated_witness :
  fst (process_item Sample.post_times_out (JObj Sample.cafe) []) =
    Ok (JObj (<["image" := JNull]> Sample.cafe)).
Proof.
  refine (proj1 (request_failure_isolated Sample.post_times_out Sample.cafe
                   [JObj Sample.no_url] [] _
                   (snd (process_item Sample.post_times_out (JObj Sample.cafe) []))
                   _ _)).
  - vm_compute. reflexivity.
  - vm_compute. do 3 apply Exists_cons_tl. apply Exists_cons_hd. reflexivity.
Defined.

(** ** The other fields *)

Lemma fs_do_inv w op h r ev :
  fs_do w op h = (r, ev) ->
  (r = Ok tt /\ ev = [EvFs op None]) \/
  (exists e, r = Raise e /\ ev = [EvFs op (Some e)]).
Proof.
  unfold fs_do. destruct (fs w h op); intros [= <- <-]; eauto.
Qed.

Lemma load_input_inv w path h r ev :
  load_input w path h = (r, ev) ->
  (exists loaded, r = Ok (Some loaded) /\ ev = [EvLoad path (Ok loaded)]) \/
  (exists e, (e = FileNotFoundError \/ e = JSONDecodeError) /\ r = Ok None /\
     ev = [EvLoad path (Raise e); EvPrint (input_error_msg e path)]) \/
  (exists e, e <> FileNotFoundError /\ e <> JSONDecodeError /\ r = Raise e /\
     ev = [EvLoad path (Raise e)]).
Proof.
  unfold load_input, try_except, bind, json_load.
  destruct (load w h path) as [loaded|e]; simpl.
  - intros [= <- <-]. left. eauto.
  - destruct e; simpl; intros [= <- <-]; eauto 10;
      right; right; eexists; repeat split; discriminate.
Qed.

Lemma emits_process_all w loaded : emits loop_event (process_all w loaded).
Proof.
  unfold process_all.
  apply emits_bind; [apply emits_lift|]. intros items.
  apply emits_bind; [apply emits_for_each, emits_process_item|].
  intros items'. apply emits_ret.
Qed.

Lemma process_all_list w items h result ev :
  process_all w (JArr items) h = (Ok result, ev) ->
  exists items', result = JArr items' /\ Forall2 annotated items items'.
Proof.
  unfold process_all. intros Hrun.
  apply bind_inv in Hrun as [(e & _ & [=])|(xs & ev1 & ev2 & H1 & H2 & _)].
  injection H1 as <- <-.
  apply bind_inv in H2 as [(e & _ & [=])|(items' & ev3 & ev4 & H3 & H4 & _)].
  injection H4 as <- _. exists items'. split; [reflexivity|].
  eapply (for_each_returns annotated), H3. apply returns_process_annotated.
Qed.

Lemma annotated_keeps_fields item it' :
  annotated (JObj item) it' ->
  exists item', it' = JObj item' /\
    forall key : string, key <> "image" -> item' !! key = item !! key.
Proof.
  intros (item0 & [= <-] & v & -> & _). eexists. split; [reflexivity|].
  intros key Hkey. apply lookup_insert_ne. congruence.
Qed.


(** The ways a run can go: the output directory cannot be made; the input
    cannot be read, with or without a message; or the input is loaded, and
    what follows are events of the loop and the dump of what the loop
    returned. *)
Lemma run_inv w path h r ev :
  download_social_preview_images w path h = (r, ev) ->
  (exists e, ev = [EvFs (Makedirs output_dir) (Some e)]) \/
  (exists e, e <> FileNotFoundError /\ e <> JSONDecodeError /\ r = Raise e /\
     ev = [EvFs (Makedirs output_dir) None; EvLoad path (Raise e)]) \/
  (exists e, (e = FileNotFoundError \/ e = JSONDecodeError) /\ r = Ok tt /\
     ev = [EvFs (Makedirs output_dir) None; EvLoad path (Raise e);
           EvPrint (input_error_msg e path)]) \/
  (exists loaded tail,
     ev = EvFs (Makedirs output_dir) None :: EvLoad path (Ok loaded) :: tail /\
     Forall (fun e => loop_event e \/
               exists result err, e = EvFs (DumpJson json_output_path result) err /\
                 exists hl evl, process_all w loaded hl = (Ok result, evl)) tail).
Proof.
  unfold download_social_preview_images. intros Hrun.
  apply bind_inv in Hrun as [(e & H1 & ->)|(u & ev1 & ev2 & H1 & H2 & ->)];
    apply fs_do_inv in H1 as [[H1 ->]|(e' & H1 & ->)]; try discriminate H1.
  { left. eauto. }
  right.
  apply bind_inv in H2 as [(e & H2 & ->)|(loaded & ev3 & ev4 & H2 & H3 & ->)];
    apply load_input_inv in H2
      as [(d & Hr & ->)|[(e1 & He1 & Hr & ->)|(e1 & Hn1 & Hn2 & Hr & ->)]];
    try discriminate Hr.
  - injection Hr; intros; subst. left. eauto 10.
  - injection Hr; intros; subst. right. right. exists d. eexists. split; [reflexivity|].
    apply bind_inv in H3 as [(e & H3 & ->)|(n & ev5 & ev6 & H3 & H4 & ->)].
    { injection H3; intros; subst. constructor. }
    injection H3; intros; subst. simpl.
    apply bind_inv in H4 as [(e & H4 & ->)|(u1 & ev7 & ev8 & H4 & H5 & ->)].
    { discriminate H4. }
    injection H4; intros; subst. simpl. constructor; [simpl; left; exact I|].
    apply bind_inv in H5 as [(e & H5 & ->)|(result & ev9 & ev10 & H5 & H6 & ->)].
    { eapply Forall_impl; [eapply emits_process_all, H5|]. simpl. auto. }
    apply Forall_app. split.
    { eapply Forall_impl; [eapply emits_process_all, H5|]. simpl. auto. }
    apply bind_inv in H6 as [(e & H6 & ->)|(u2 & ev11 & ev12 & H6 & H7 & ->)];
      apply fs_do_inv in H6 as [[H6 ->]|(e' & H6 & ->)]; try discriminate H6.
    + constructor; [simpl; right; eauto 10|constructor].
    + simpl. constructor; [simpl; right; eauto 10|].
      injection H7; intros; subst.
      repeat (constructor; [simpl; left; exact I|]). constructor.
  - injection Hr; intros; subst. injection H3; intros; subst.
    right. left. exists e1. rewrite app_nil_r. auto.
Qed.

(** C6. In the list that is written out, the record at each position is
    the input record of that position with every field other than the
    image field present and unchanged. *)
Theorem other_fields_preserved (w : World) (path : string) (h : list Event)
    (r : Res unit) (ev : list Event) (items : list json) (out : string)
    (result : json) (err : option exn) :
  download_social_preview_images w path h = (r, ev) ->
  In (EvLoad path (Ok (JArr items))) ev ->
  In (EvFs (DumpJson out result) err) ev ->
  exists items',
    result = JArr items' /\ length items' = length items /\
    forall (i : nat) (item : gmap string json),
      items !! i = Some (JObj item) ->
      exists item',
        items' !! i = Some (JObj item') /\
        forall key : string, key <> "image" -> item' !! key = item !! key.
Proof.
  intros Hrun Hload Hdump.
  apply run_inv in Hrun
    as [(e & ->)|[(e & _ & _ & _ & ->)|[(e & _ & _ & ->)|(loaded & tail & -> & Htail)]]];
    try (simpl in Hload; intuition discriminate).
  rewrite List.Forall_forall in Htail.
  destruct Hload as [[=]|[[= ->]|Hload]].
  2:{ apply Htail in Hload as [[]|(? & ? & [=] & _)]. }
  destruct Hdump as [[=]|[[=]|Hdump]].
  apply Htail in Hdump as [[]|(result' & err' & [= _ <- _] & hl & evl & Hall)].
  apply process_all_list in Hall as (items' & -> & Hall).
  exists items'. split; [reflexivity|]. split.
  { symmetry. eapply Forall2_length, Hall. }
  intros i item Hi.
  destruct (Forall2_lookup_l _ _ _ _ _ Hall Hi) as (it' & Hi' & Hann).
  apply annotated_keeps_fields in Hann as (item' & -> & Hkeep). eauto.
Qed.

Lemma other_fields_preserved_witness :
  exists items',
    JArr [JObj (<["image" := JNull]> Sample.no_url);
          JObj (<["image" := JStr "place_images/Caffe_Roma_bar.jpg"]> Sample.cafe)]
      = JArr items' /\
    length items' = 2%nat /\
    forall (i : nat) (item : gmap string json),
      [JObj Sample.no_url; JObj Sample.cafe] !! i = Some (JObj item) ->
      exists item',
        items' !! i = Some (JObj item') /\
        forall key : string, key <> "image" -> item' !! key = item !! key.
Proof.
  refine (other_fields_preserved Sample.happy "locations.json" []
            (fst (download_social_preview_images Sample.happy "locations.json" []))
            (snd (download_social_preview_images Sample.happy "locations.json" []))
            [JObj Sample.no_url; JObj Sample.cafe] json_output_path _ None _ _ _).
  - vm_compute. reflexivity.
  - vm_compute. right. left. reflexivity.
  - apply (nth_error_In _ 13). vm_compute. reflexivity.
Defined.

(** ** A missing or malformed input file *)

(** C7, as the code has it.  When the input file is missing or its text
    is not valid JSON, the run consists of the call that makes the output
    directory, the attempt to load, and one error message; it returns
    normally, with no request and no file written.  Any other exception
    of the attempt to load (a file that is not valid UTF-8 raises
    UnicodeDecodeError) is not caught: the run ends with it after the
    same two first events, without a message. *)
Theorem input_error_stops_run (w : World) (path : string) (h : list Event)
    (r : Res unit) (ev : list Event) (e : exn) :
  download_social_preview_images w path h = (r, ev) ->
  In (EvLoad path (Raise e)) ev ->
  (e = FileNotFoundError \/ e = JSONDecodeError ->
   r = Ok tt /\
   ev = [EvFs (Makedirs output_dir) None; EvLoad path (Raise e);
         EvPrint (input_error_msg e path)]) /\
  (e <> FileNotFoundError -> e <> JSONDecodeError ->
   r = Raise e /\
   ev = [EvFs (Makedirs output_dir) None; EvLoad path (Raise e)]).
Proof.
  intros Hrun Hload.
  apply run_inv in Hrun
    as [(e' & ->)|[(e' & Hn1 & Hn2 & -> & ->)|[(e' & He' & -> & ->)|(loaded & tail & -> & Htail)]]].
  - simpl in Hload. intuition discriminate.
  - destruct Hload as [[=]|[[= ->]|[]]]. split; [|auto].
    intros [-> | ->]; contradiction.
  - destruct Hload as [[=]|[[= ->]|[[=]|[]]]]. split; [auto|].
    intros Hn1 Hn2. destruct He'; contradiction.
  - rewrite List.Forall_forall in Htail.
    destruct Hload as [[=]|[[=]|Hload]].
    apply Htail in Hload as [[]|(? & ? & [=] & _)].
Qed.

Lemma input_error_stops_run_witness :
  download_social_preview_images Sample.no_input "locations.json" [] =
    (Ok tt,
     [EvFs (Makedirs "place_images") None;
      EvLoad "locations.json" (Raise FileNotFoundError);
      EvPrint (MsgFileNotFound "locations.json")]).
Proof.
  pose proof (input_error_stops_run Sample.no_input "locations.json" []
                (fst (download_social_preview_images Sample.no_input "locations.json" []))
                (snd (download_social_preview_images Sample.no_input "locations.json" []))
                FileNotFoundError) as H.
  destruct H as [Hcaught _].
  - vm_compute. reflexivity.
  - vm_compute. right. left. reflexivity.
  - destruct Hcaught as [Hr Hev]; [left; reflexivity|].
    rewrite (surjective_pairing (download_social_preview_images _ _ _)).
    rewrite Hr, Hev. reflexivity.
Defined.

(** C7, as the specification has it, fails: a file that exists but cannot
    be decoded makes the attempt to load raise an exception that neither
    except clause names, so no message is printed. *)
Lemma undecodable_input_prints_nothing :
  ~ input_failure_as_specified MoreSamples.not_utf8 "locations.json" [].
Proof.
  intros Hspec.
  destruct (Hspec UnicodeDecodeError) as ((m & Hin) & _).
  - vm_compute. right. left. reflexivity.
  - vm_compute in Hin. intuition discriminate.
Qed.

(** The output directory is made before the input file is opened, so
    also a run on a missing input file has acted on the file system. *)
Lemma input_error_creates_directory :
  ~ input_error_as_specified Sample.no_input "locations.json" [].
Proof.
  intros Hspec.
  destruct (Hspec FileNotFoundError) as (_ & _ & Hfs).
  - vm_compute. right. left. reflexivity.
  - left. reflexivity.
  - apply (Hfs (Makedirs "place_images") None). vm_compute. left. reflexivity.
Qed.

(** ** The consent form *)

Lemma add_input_field form_data n :
  add_input form_data n =
    match field_of n with
    | (name, value) :: _ => <[name := value]> form_data
    | [] => form_data
    end.
Proof.
  unfold add_input, field_of.
  destruct (tag_get n "name") as [name|]; [|reflexivity].
  destruct (String.eqb name EmptyString); reflexivity.
Qed.

Lemma field_of_short n : field_of n = [] \/ exists kv, field_of n = [kv].
Proof.
  unfold field_of. destruct (tag_get n "name") as [name|]; [|auto].
  destruct (String.eqb name EmptyString); eauto.
Qed.

(** The form data are the fields of all the inputs of the form, a later
    one replacing an earlier one of the same name. *)
Lemma fold_add_input inputs :
  fold_left add_input inputs ∅ = field_mapping (flat_map field_of inputs).
Proof.
  induction inputs as [|n inputs IH] using rev_ind; [reflexivity|].
  rewrite fold_left_app, flat_map_app. simpl.
  rewrite IH, add_input_field, app_nil_r.
  unfold field_mapping. rewrite reverse_app.
  destruct (field_of_short n) as [-> | [[name value] ->]]; reflexivity.
Qed.

Lemma flat_map_filter_fields (keep : Node -> bool) inputs :
  (forall n, In n inputs -> field_of n <> [] -> keep n = true) ->
  flat_map field_of (List.filter keep inputs) = flat_map field_of inputs.
Proof.
  induction inputs as [|n inputs IH]; intros Hkeep; [reflexivity|].
  simpl. destruct (keep n) eqn:Hn; simpl.
  - rewrite IH; [reflexivity|]. intros; apply Hkeep; simpl; auto.
  - destruct (field_of n) eqn:Hf.
    + rewrite IH; [reflexivity|]. intros; apply Hkeep; simpl; auto.
    + exfalso. assert (keep n = true); [|congruence].
      apply Hkeep; simpl; auto. congruence.
Qed.

Lemma collect_hidden_fields form :
  (forall n, In n (find_all "input" [] form) ->
     field_of n <> [] -> is_hidden_input n = true) ->
  collect_form_data form = field_mapping (hidden_fields form).
Proof.
  intros Hhidden. unfold collect_form_data, hidden_fields.
  rewrite fold_add_input. now rewrite flat_map_filter_fields.
Qed.

Lemma find_all_matches name filters root n :
  In n (find_all name filters root) -> node_matches name filters n = true.
Proof. unfold find_all. intros Hin. apply filter_In in Hin. tauto. Qed.

Lemma last_In {A} (l : list A) x : last l = Some x -> In x l.
Proof.
  intros Hl. apply last_Some in Hl as [l' ->]. apply in_app_iff. simpl. auto.
Qed.

Lemma consent_form_has_action form soup :
  last (find_all "form" [("action", MatchRegex consent_pattern)] soup) = Some form ->
  exists action,
    tag_get form "action" = Some action /\
    re_search consent_pattern action = true.
Proof.
  intros Hl. apply last_In, find_all_matches in Hl.
  destruct form as [nm a cs|]; [|discriminate]. simpl in Hl.
  apply andb_prop in Hl as [_ Hl]. apply andb_prop in Hl as [Hl _].
  simpl. destruct (a !! "action") as [action|]; [|discriminate]. eauto.
Qed.

Lemma checked_send {B} w req (k : Response -> M B) h :
  bind (send w req) (fun resp => bind (raise_for_status resp) (fun _ => k resp)) h =
    match checked (http w h req) with
    | Ok resp =>
        (fst (k resp (h ++ [EvRequest req (http w h req)])%list),
         EvRequest req (http w h req)
           :: snd (k resp (h ++ [EvRequest req (http w h req)])%list))
    | Raise e => (Raise e, [EvRequest req (http w h req)])
    end.
Proof.
  unfold bind, send, checked, raise_for_status.
  destruct (http w h req) as [resp|e]; [|reflexivity].
  destruct (_ && _)%bool; [reflexivity|]. unfold ret. simpl.
  rewrite app_nil_r.
  destruct (k resp _); reflexivity.
Qed.

Lemma print_bind {B} msg (k : unit -> M B) h :
  bind (print msg) k h =
    (fst (k tt (h ++ [EvPrint msg])%list),
     EvPrint msg :: snd (k tt (h ++ [EvPrint msg])%list)).
Proof. unfold bind, print. destruct (k tt _); reflexivity. Qed.

Lemma ret_bind {A B} (a : A) (k : A -> M B) h : bind (ret a) k h = k a h.
Proof.
  unfold bind, ret. rewrite app_nil_r. destruct (k a h); reflexivity.
Qed.

(** The first part of [fetch_final_soup]: the page fetched first and its
    consent forms. *)
Lemma fetch_run_first w google_maps_url place_name h :
  let get := get_request google_maps_url in
  let o1 := http w (h ++ [EvPrint (MsgProcessing place_name)])%list get in
  let fetched := [EvPrint (MsgProcessing place_name); EvRequest get o1] in
  fetch_final_soup w google_maps_url place_name h =
    match checked o1 with
    | Raise e => (Raise e, fetched)
    | Ok r1 =>
        let soup := html_parser w (text r1) in
        match last (find_all "form" [("action", MatchRegex consent_pattern)] soup) with
        | None => (Ok soup, fetched)
        | Some form =>
            let rest :=
              (print MsgConsentDetected ;;
               form_action <- tag_getitem form "action" ;;
               consent_post_response <-
                 session_post w form_action (collect_form_data form) ;;
               raise_for_status consent_post_response ;;
               print MsgConsentSubmitted ;;
               final_response <- session_get w google_maps_url ;;
               raise_for_status final_response ;;
               ret (BeautifulSoup w (text final_response)))
                (h ++ fetched)%list in
            (fst rest, (fetched ++ snd rest)%list)
        end
    end.
Proof.
  cbv zeta. unfold fetch_final_soup, session_get at 1, get_request.
  rewrite print_bind, checked_send.
  destruct (checked _) as [r1|e]; [|reflexivity]. simpl.
  unfold BeautifulSoup at 1 2.
  rewrite <- app_assoc. simpl.
  destruct (last _) as [form|]; reflexivity.
Qed.

(** The second part, once a consent form has been found. *)
Lemma consent_run w google_maps_url h form action :
  tag_get form "action" = Some action ->
  let get := get_request google_maps_url in
  let post := post_request action (collect_form_data form) in
  let o2 := http w (h ++ [EvPrint MsgConsentDetected])%list post in
  let posted := [EvPrint MsgConsentDetected; EvRequest post o2] in
  let o3 := http w (h ++ posted ++ [EvPrint MsgConsentSubmitted])%list get in
  let refetched := (posted ++ [EvPrint MsgConsentSubmitted; EvRequest get o3])%list in
  (print MsgConsentDetected ;;
   form_action <- tag_getitem form "action" ;;
   consent_post_response <-
     session_post w form_action (collect_form_data form) ;;
   raise_for_status consent_post_response ;;
   print MsgConsentSubmitted ;;
   final_response <- session_get w google_maps_url ;;
   raise_for_status final_response ;;
   ret (BeautifulSoup w (text final_response))) h =
    match checked o2 with
    | Raise e => (Raise e, posted)
    | Ok _ =>
        match checked o3 with
        | Raise e => (Raise e, refetched)
        | Ok r3 => (Ok (html_parser w (text r3)), refetched)
        end
    end.
Proof.
  intros Haction. cbv zeta.
  unfold tag_getitem, session_get, session_post, get_request, post_request.
  rewrite Haction, print_bind, ret_bind, checked_send.
  destruct (checked _) as [r2|e]; [|reflexivity].
  rewrite print_bind, checked_send. simpl.
  rewrite <- !app_assoc. simpl.
  destruct (checked _) as [r3|e]; reflexivity.
Qed.

(** C1, as the code has it.  When the page fetched first has a form whose
    action matches the consent pattern, the last such form is submitted:
    one POST goes to its action, with the form data collected from it; if
    the POST fails, that is the last request of the sequence; if it
    succeeds, one more GET of the source URL follows, and the image is
    looked up on the page that GET returns, after these requests.  When all
    the named inputs of the form are hidden, the form data are the
    hidden-input name/value pairs of the form, the last value taken for a
    repeated name. *)
Theorem consent_form_submitted (w : World) (item : gmap string json)
    (google_maps_url place_name : json) (h : list Event) (r1 : Response)
    (form : Node) :
  let get := get_request google_maps_url in
  let o1 := http w (h ++ [EvPrint (MsgProcessing place_name)])%list get in
  checked o1 = Ok r1 ->
  last (find_all "form" [("action", MatchRegex consent_pattern)]
          (html_parser w (text r1))) = Some form ->
  exists action,
    tag_get form "action" = Some action /\
    ((forall n, In n (find_all "input" [] form) ->
        field_of n <> [] -> is_hidden_input n = true) ->
     collect_form_data form = field_mapping (hidden_fields form)) /\
    let post := post_request action (collect_form_data form) in
    let detected :=
      [EvPrint (MsgProcessing place_name); EvRequest get o1;
       EvPrint MsgConsentDetected] in
    let o2 := http w (h ++ detected)%list post in
    let posted := (detected ++ [EvRequest post o2])%list in
    let o3 := http w (h ++ posted ++ [EvPrint MsgConsentSubmitted])%list get in
    let refetched :=
      (posted ++ [EvPrint MsgConsentSubmitted; EvRequest get o3])%list in
    (soup <- fetch_final_soup w google_maps_url place_name ;;
     locate_and_download w soup item place_name) h =
      match checked o2 with
      | Raise e => (Raise e, posted)
      | Ok _ =>
          match checked o3 with
          | Raise e => (Raise e, refetched)
          | Ok r3 =>
              let found :=
                locate_and_download w (html_parser w (text r3)) item place_name
                  (h ++ refetched)%list in
              (fst found, (refetched ++ snd found)%list)
          end
      end.
Proof.
  intros get o1 Hfirst Hlast. subst o1 get.
  destruct (consent_form_has_action _ _ Hlast) as (action & Haction & _).
  exists action. split; [exact Haction|]. split; [apply collect_hidden_fields|].
  cbv zeta. unfold bind at 1.
  rewrite fetch_run_first. cbv zeta. rewrite Hfirst, Hlast.
  rewrite (consent_run _ _ _ _ _ Haction). cbv zeta.
  rewrite <- !app_assoc. simpl.
  match goal with
  | |- context [checked (http w ?hh (post_request ?a ?d))] =>
      destruct (checked (http w hh (post_request a d))) as [r2|e];
        [|reflexivity]
  end.
  match goal with
  | |- context [checked (http w (h ++ ?l)%list (get_request ?u))] =>
      destruct (checked (http w (h ++ l)%list (get_request u))) as [r3|e];
        [|reflexivity]
  end.
  simpl. rewrite <- ?app_assoc. simpl.
  destruct (locate_and_download _ _ _ _ _); reflexivity.
Qed.

Lemma consent_form_submitted_witness :
  List.filter is_request
    (snd ((soup <- fetch_final_soup Sample.happy (JStr Sample.source_url)
                     (JStr "Caffe Roma: bar?") ;;
           locate_and_download Sample.happy soup Sample.cafe
             (JStr "Caffe Roma: bar?")) [])) =
    [EvRequest (get_request (JStr Sample.source_url))
       (Ok (Sample.page Sample.consent_markup));
     EvRequest
       (post_request Sample.accept_action
          (<["gl" := "IT"]> (<["set_eom" := "true"]> ∅)))
       Sample.accepted;
     EvRequest (get_request (JStr Sample.source_url))
       (Ok (Sample.page Sample.place_markup));
     EvRequest (get_request (JStr Sample.image_url)) Sample.jpeg].
Proof.
  destruct (consent_form_submitted Sample.happy Sample.cafe
              (JStr Sample.source_url) (JStr "Caffe Roma: bar?") []
              (Sample.page Sample.consent_markup) Sample.accept_form)
    as (action & Haction & _ & Hrun).
  - vm_compute. reflexivity.
  - vm_compute. reflexivity.
  - injection Haction as <-. rewrite Hrun. vm_compute. reflexivity.
Defined.

(** C1, as the specification has it, fails: when the consent POST times
    out, the source URL is not fetched again. *)
Lemma consent_post_failure_stops_sequence :
  ~ consent_sequence_as_specified Sample.post_times_out Sample.cafe
      Sample.source_url [].
Proof.
  intros Hspec.
  destruct (Hspec (Sample.page Sample.consent_markup)) as [_ Hreget].
  - vm_compute. reflexivity.
  - unfold error_status. simpl. lia.
  - vm_compute. discriminate.
  - vm_compute in Hreget. discriminate.
Qed.

(** The form data are taken from every named input, hidden or not: on the
    sample form with a text input, the text field is posted too. *)
Example text_input_is_posted :
  collect_form_data Sample.search_form = <["gl" := "IT"]> (<["q" := "pizza"]> ∅) /\
  hidden_fields Sample.search_form = [("gl", "IT")].
Proof. split; vm_compute; reflexivity. Qed.

(** ** The image tag *)

Lemma process_item_truthy w item h :
  truthy (dict_get item "Google_Maps") = true ->
  process_item w (JObj item) h =
    try_except
      (soup <- fetch_final_soup w (dict_get item "Google_Maps")
                 (dict_get_default item "Place_Name" (JStr "unknown_place")) ;;
       locate_and_download w soup item
         (dict_get_default item "Place_Name" (JStr "unknown_place")))
      (on_request_error item
         (dict_get_default item "Place_Name" (JStr "unknown_place"))) h.
Proof. intros Hurl. simpl. rewrite Hurl. reflexivity. Qed.

(** An iteration that got its final page: the lookup runs after the
    events of the fetch, and a request exception it raises adds one
    message. *)
Lemma process_item_after_fetch w item h soup ev1 r ev :
  let place_name := dict_get_default item "Place_Name" (JStr "unknown_place") in
  truthy (dict_get item "Google_Maps") = true ->
  fetch_final_soup w (dict_get item "Google_Maps") place_name h = (Ok soup, ev1) ->
  process_item w (JObj item) h = (r, ev) ->
  exists rb ev2 ev3,
    locate_and_download w soup item place_name (h ++ ev1)%list = (rb, ev2) /\
    ev = (ev1 ++ ev2 ++ ev3)%list /\
    ((r = rb /\ ev3 = []) \/
     (exists e msg, rb = Raise e /\ is_RequestException e = true /\
        ev3 = [EvPrint msg] /\ r = Ok (JObj (<["image" := JNull]> item)))).
Proof.
  intros place_name Hurl Hfetch Hrun. rewrite process_item_truthy in Hrun by done.
  fold place_name in Hrun.
  assert (Hbody : forall rb evb,
    bind (fetch_final_soup w (dict_get item "Google_Maps") place_name)
      (fun soup => locate_and_download w soup item place_name) h = (rb, evb) ->
    exists ev2, locate_and_download w soup item place_name (h ++ ev1)%list = (rb, ev2)
                /\ evb = (ev1 ++ ev2)%list).
  { intros rb evb Hb.
    apply bind_inv in Hb as [(e & Hb & _)|(a & ev1' & ev2 & Hb & Hl & ->)];
      rewrite Hfetch in Hb; [discriminate|].
    injection Hb as <- <-. eauto. }
  apply try_except_inv in Hrun
    as [(a & Hrun & ->)|[(e & Hrun & Hnone & ->)|(e & k & evb & ev3 & Hrun & Hk & Hrun2 & ->)]];
    apply Hbody in Hrun as (ev2 & Hl & ->).
  - exists (Ok a), ev2, []. rewrite app_nil_r. auto.
  - exists (Raise e), ev2, []. rewrite app_nil_r. auto.
  - apply on_request_error_some in Hk as (He & msg & ->).
    rewrite handler_run in Hrun2. injection Hrun2 as <- <-.
    exists (Raise e), ev2, [EvPrint msg]. rewrite <- app_assoc.
    split; [exact Hl|]. split; [reflexivity|]. right. eauto 10.
Qed.

(** The requests of [download_image]: at most one, for the image URL, and
    exactly one when the display name is a string. *)
Lemma download_image_requests w item place_name u h r ev :
  download_image w item place_name u h = (r, ev) ->
  (forall req o, In (EvRequest req o) ev -> req = get_request (JStr u)) /\
  (forall s, place_name = JStr s ->
     exists o tail, ev = EvRequest (get_request (JStr u)) o :: tail).
Proof.
  unfold download_image, session_get. intros Hrun.
  apply bind_inv in Hrun as [(e & Hrun & _)|(name & ev1 & ev2 & H1 & Hrun & ->)].
  { unfold sanitized_name_of in Hrun. destruct place_name; try discriminate Hrun;
      injection Hrun; intros; subst; (split; [intros ? ? []|discriminate]). }
  assert (ev1 = []) as ->.
  { unfold sanitized_name_of in H1. destruct place_name; try discriminate H1.
    now injection H1. }
  simpl. clear H1.
  rewrite checked_send in Hrun. fold (get_request (JStr u)) in Hrun.
  destruct (checked _) as [resp|e].
  - set (hh := (_ ++ [EvRequest _ _])%list) in Hrun.
    match type of Hrun with
    | context [fs_do w ?op] => destruct (fs_do w op hh) as [rf evf] eqn:Hfs
    end.
    unfold bind in Hrun. rewrite Hfs in Hrun.
    apply fs_do_inv in Hfs as [[-> ->]|(e & -> & ->)];
      simpl in Hrun; injection Hrun as <- <-;
      (split; [intros req o [[= <- _]|Hin]; [reflexivity|];
               simpl in Hin; intuition discriminate | eauto]).
  - injection Hrun as <- <-.
    split; [intros req o [[= <- _]|[]]; reflexivity | eauto].
Qed.

Lemma locate_with_content w soup item place_name t u h :
  find_image_tag soup = Some t ->
  tag_get t "content" = Some u -> u <> EmptyString ->
  locate_and_download w soup item place_name h =
    download_image w item place_name u h.
Proof.
  intros Ht Hu Hne. unfold locate_and_download. rewrite Ht, Hu.
  destruct (String.eqb_spec u EmptyString); [contradiction|reflexivity].
Qed.

(** C2. When the final page has a meta tag with itemprop=image (the first
    of them being the one that is found) and a meta tag with
    property=og:image, and they carry different URLs, every request made
    after the page was fetched is a GET of the URL of the itemprop=image
    tag, and that request is made whenever the display name is a string. *)
Theorem itemprop_image_preferred (w : World) (item : gmap string json)
    (h : list Event) (soup : Node) (ev1 : list Event) (t og : Node)
    (u v : string) :
  let place_name := dict_get_default item "Place_Name" (JStr "unknown_place") in
  truthy (dict_get item "Google_Maps") = true ->
  fetch_final_soup w (dict_get item "Google_Maps") place_name h = (Ok soup, ev1) ->
  find "meta" [("itemprop", MatchStr "image")] soup = Some t ->
  tag_get t "content" = Some u -> u <> EmptyString ->
  In og (find_all "meta" [("property", MatchStr "og:image")] soup) ->
  tag_get og "content" = Some v -> v <> u ->
  exists ev2,
    snd (process_item w (JObj item) h) = (ev1 ++ ev2)%list /\
    (forall req o, In (EvRequest req o) ev2 -> req = get_request (JStr u)) /\
    (forall s, place_name = JStr s ->
       exists o, In (EvRequest (get_request (JStr u)) o) ev2).
Proof.
  intros place_name Hurl Hfetch Ht Hu Hne _ _ _.
  destruct (process_item w (JObj item) h) as [r ev] eqn:Hrun.
  destruct (process_item_after_fetch _ _ _ _ _ _ _ Hurl Hfetch Hrun)
    as (rb & ev2 & ev3 & Hl & -> & Hhandler).
  fold place_name in Hl.
  rewrite (locate_with_content _ _ _ _ t u) in Hl;
    [|unfold find_image_tag; now rewrite Ht|exact Hu|exact Hne].
  apply download_image_requests in Hl as [Honly Hsome].
  exists (ev2 ++ ev3)%list. split; [reflexivity|]. split.
  - intros req o Hin. apply in_app_iff in Hin as [Hin|Hin]; [eauto|].
    destruct Hhandler as [[_ ->]|(e & msg & _ & _ & -> & _)];
      simpl in Hin; intuition discriminate.
  - intros s Hs. destruct (Hsome s Hs) as (o & tail & ->).
    exists o. simpl. auto.
Qed.

Lemma itemprop_image_preferred_witness :
  exists o,
    In (EvRequest (get_request (JStr Sample.image_url)) o)
       (snd (process_item Sample.direct (JObj Sample.cafe) [])).
Proof.
  destruct (itemprop_image_preferred Sample.direct Sample.cafe []
              Sample.place_page
              (snd (fetch_final_soup Sample.direct (JStr Sample.source_url)
                      (JStr "Caffe Roma: bar?") []))
              (Sample.meta "itemprop" "image" Sample.image_url)
              (Sample.meta "property" "og:image" Sample.og_url)
              Sample.image_url Sample.og_url)
    as (ev2 & Hev & _ & Hsome).
  - vm_compute. reflexivity.
  - vm_compute. reflexivity.
  - vm_compute. reflexivity.
  - vm_compute. reflexivity.
  - discriminate.
  - vm_compute. left. reflexivity.
  - vm_compute. reflexivity.
  - discriminate.
  - destruct (Hsome "Caffe Roma: bar?") as [o Hin]; [vm_compute; reflexivity|].
    exists o. rewrite Hev. apply in_app_iff. auto.
Defined.

(** C10. When the meta tag that is found has no content attribute or an
    empty one, the record gets the null marker, and the only event after
    the page was fetched is the warning: no image is requested. *)
Theorem empty_content_is_not_found (w : World) (item : gmap string json)
    (h : list Event) (soup : Node) (ev1 : list Event) (t : Node) :
  let place_name := dict_get_default item "Place_Name" (JStr "unknown_place") in
  truthy (dict_get item "Google_Maps") = true ->
  fetch_final_soup w (dict_get item "Google_Maps") place_name h = (Ok soup, ev1) ->
  find_image_tag soup = Some t ->
  tag_get t "content" = None \/ tag_get t "content" = Some EmptyString ->
  process_item w (JObj item) h =
    (Ok (JObj (<["image" := JNull]> item)),
     (ev1 ++ [EvPrint (MsgWarningNoImage place_name)])%list).
Proof.
  intros place_name Hurl Hfetch Ht Hcontent.
  rewrite process_item_truthy by exact Hurl. fold place_name.
  unfold try_except. erewrite bind_ok by exact Hfetch.
  unfold locate_and_download. rewrite Ht.
  destruct Hcontent as [-> | ->]; reflexivity.
Qed.

Lemma empty_content_is_not_found_witness :
  process_item Sample.empty_content (JObj Sample.cafe) [] =
    (Ok (JObj (<["image" := JNull]> Sample.cafe)),
     [EvPrint (MsgProcessing (JStr "Caffe Roma: bar?"));
      EvRequest (get_request (JStr Sample.source_url))
        (Ok (Sample.page Sample.empty_content_markup));
      EvPrint (MsgWarningNoImage (JStr "Caffe Roma: bar?"))]).
Proof.
  refine (empty_content_is_not_found Sample.empty_content Sample.cafe []
            Sample.empty_content_page
            [EvPrint (MsgProcessing (JStr "Caffe Roma: bar?"));
             EvRequest (get_request (JStr Sample.source_url))
               (Ok (Sample.page Sample.empty_content_markup))]
            (Sample.meta "itemprop" "image" EmptyString) _ _ _ _).
  - vm_compute. reflexivity.
  - vm_compute. reflexivity.
  - vm_compute. reflexivity.
  - right. vm_compute. reflexivity.
Defined.

(** ** The default display name *)

(** The success message is printed only after the image file was written,
    and then the record gets the path of that file. *)
Lemma download_success w item place_name u h r ev n :
  download_image w item place_name u h = (r, ev) ->
  In (EvPrint (MsgSuccess n)) ev ->
  exists s bytes,
    place_name = JStr s /\
    r = Ok (JObj (<["image" :=
               JStr (os_path_join output_dir (sanitize s ++ ".jpg"))]> item)) /\
    In (EvFs (WriteBytes (os_path_join output_dir (sanitize s ++ ".jpg")) bytes)
          None) ev.
Proof.
  unfold download_image, session_get. intros Hrun Hin.
  apply bind_inv in Hrun as [(e & Hrun & _)|(name & ev1 & ev2 & H1 & Hrun & ->)].
  { unfold sanitized_name_of in Hrun. destruct place_name; try discriminate Hrun;
      injection Hrun; intros; subst; destruct Hin. }
  unfold sanitized_name_of in H1.
  destruct place_name as [| | | |s| |]; try discriminate H1.
  injection H1; intros; subst. simpl in Hin. clear H1.
  rewrite checked_send in Hrun.
  destruct (checked _) as [resp|e].
  - set (hh := (_ ++ [EvRequest _ _])%list) in Hrun.
    match type of Hrun with
    | context [fs_do w ?op] => destruct (fs_do w op hh) as [rf evf] eqn:Hfs
    end.
    unfold bind in Hrun. rewrite Hfs in Hrun.
    apply fs_do_inv in Hfs as [[-> ->]|(e & -> & ->)];
      simpl in Hrun; injection Hrun; intros; subst.
    + exists s, (content resp). simpl. auto.
    + simpl in Hin. intuition discriminate.
  - injection Hrun; intros; subst. simpl in Hin. intuition discriminate.
Qed.

Lemma locate_success w soup item place_name h r ev n :
  locate_and_download w soup item place_name h = (r, ev) ->
  In (EvPrint (MsgSuccess n)) ev ->
  exists s bytes,
    place_name = JStr s /\
    r = Ok (JObj (<["image" :=
               JStr (os_path_join output_dir (sanitize s ++ ".jpg"))]> item)) /\
    In (EvFs (WriteBytes (os_path_join output_dir (sanitize s ++ ".jpg")) bytes)
          None) ev.
Proof.
  unfold locate_and_download. intros Hrun Hin.
  assert (Hnot : forall r' ev', image_not_found item place_name h = (r', ev') ->
                 ~ In (EvPrint (MsgSuccess n)) ev').
  { intros r' ev' [= _ <-] [[=]|[]]. }
  destruct (find_image_tag soup) as [t|]; [|exfalso; eapply Hnot; eauto].
  destruct (tag_get t "content") as [c|]; [|exfalso; eapply Hnot; eauto].
  destruct (String.eqb c EmptyString); [exfalso; eapply Hnot; eauto|].
  eapply download_success; eauto.
Qed.

Lemma process_item_success w item h r ev n :
  process_item w (JObj item) h = (r, ev) ->
  In (EvPrint (MsgSuccess n)) ev ->
  exists s bytes,
    dict_get_default item "Place_Name" (JStr "unknown_place") = JStr s /\
    r = Ok (JObj (<["image" :=
               JStr (os_path_join output_dir (sanitize s ++ ".jpg"))]> item)) /\
    In (EvFs (WriteBytes (os_path_join output_dir (sanitize s ++ ".jpg")) bytes)
          None) ev.
Proof.
  intros Hrun Hin.
  destruct (truthy (dict_get item "Google_Maps")) eqn:Hurl.
  2:{ simpl in Hrun. rewrite Hurl in Hrun. injection Hrun; intros; subst.
      simpl in Hin. intuition discriminate. }
  rewrite process_item_truthy in Hrun by exact Hurl.
  set (place_name := dict_get_default item "Place_Name" (JStr "unknown_place")) in *.
  assert (Hbody : forall rb evb,
    bind (fetch_final_soup w (dict_get item "Google_Maps") place_name)
      (fun soup => locate_and_download w soup item place_name) h = (rb, evb) ->
    In (EvPrint (MsgSuccess n)) evb ->
    exists s bytes,
      place_name = JStr s /\
      rb = Ok (JObj (<["image" :=
                 JStr (os_path_join output_dir (sanitize s ++ ".jpg"))]> item)) /\
      In (EvFs (WriteBytes (os_path_join output_dir (sanitize s ++ ".jpg")) bytes)
            None) evb).
  { intros rb evb Hb Hinb.
    assert (Hfetch : emits (fun e => e <> EvPrint (MsgSuccess n))
                       (fetch_final_soup w (dict_get item "Google_Maps") place_name)).
    { apply emits_fetch; discriminate. }
    apply bind_inv in Hb as [(e & Hb & _)|(soup & ev1 & ev2 & Hb & Hl & ->)];
      apply Hfetch in Hb; rewrite List.Forall_forall in Hb.
    - exfalso. eapply Hb; eauto.
    - apply in_app_iff in Hinb as [Hinb|Hinb];
        [exfalso; eapply Hb; eauto|].
      destruct (locate_success _ _ _ _ _ _ _ _ Hl Hinb) as (s & bytes & ? & ? & ?).
      exists s, bytes. repeat split; auto. apply in_app_iff. auto. }
  apply try_except_inv in Hrun
    as [(a & Hrun & ->)|[(e & Hrun & Hnone & ->)|(e & k & evb & ev3 & Hrun & Hk & Hrun2 & ->)]].
  - eapply Hbody; eauto.
  - destruct (Hbody _ _ Hrun Hin) as (? & ? & _ & [=] & _).
  - apply in_app_iff in Hin as [Hin|Hin].
    + destruct (Hbody _ _ Hrun Hin) as (? & ? & _ & [=] & _).
    + exfalso. unfold on_request_error in Hk.
      destruct (is_Timeout e); [|destruct (is_RequestException e); [|done]];
        injection Hk as <-; injection Hrun2; intros; subst;
        simpl in Hin; intuition discriminate.
Qed.

(** C9. For a record without a display-name field, every message of the
    iteration is about the name unknown_place, and a successful download
    writes place_images/unknown_place.jpg and records that path. *)
Theorem default_display_name (w : World) (item : gmap string json)
    (h : list Event) (r : Res json) (ev : list Event) :
  item !! "Place_Name" = None ->
  process_item w (JObj item) h = (r, ev) ->
  (forall m n, In (EvPrint m) ev -> msg_place_name m = Some n ->
     n = JStr "unknown_place") /\
  (forall n, In (EvPrint (MsgSuccess n)) ev ->
     r = Ok (JObj (<["image" := JStr "place_images/unknown_place.jpg"]> item)) /\
     exists bytes,
       In (EvFs (WriteBytes "place_images/unknown_place.jpg" bytes) None) ev).
Proof.
  intros Hname Hrun.
  assert (Hdefault :
    dict_get_default item "Place_Name" (JStr "unknown_place") = JStr "unknown_place").
  { unfold dict_get_default. now rewrite Hname. }
  split.
  - intros m n Hin Hm.
    pose proof (emits_process_dict _ _ _ _ _ Hrun) as Hev.
    rewrite Hdefault, List.Forall_forall in Hev.
    specialize (Hev _ Hin). simpl in Hev. rewrite Hm in Hev. exact Hev.
  - intros n Hin.
    destruct (process_item_success _ _ _ _ _ _ Hrun Hin)
      as (s & bytes & Hs & -> & Hfile).
    rewrite Hdefault in Hs. injection Hs as <-. eauto.
Qed.

Lemma default_display_name_witness :
  fst (process_item Sample.direct (JObj Sample.nameless) []) =
    Ok (JObj (<["image" := JStr "place_images/unknown_place.jpg"]> Sample.nameless)).
Proof.
  refine (proj1 (proj2 (default_display_name Sample.direct Sample.nameless []
                          (fst (process_item Sample.direct (JObj Sample.nameless) []))
                          (snd (process_item Sample.direct (JObj Sample.nameless) []))
                          _ _)
                   (JStr "unknown_place") _)).
  - vm_compute. reflexivity.
  - vm_compute. reflexivity.
  - vm_compute. do 4 right. left. reflexivity.
Defined.

(** ** Sample runs *)

Example image_error_gives_null :
  fst (process_item Sample.image_missing (JObj Sample.cafe) []) =
    Ok (JObj (<["image" := JNull]> Sample.cafe)).
Proof. vm_compute. reflexivity. Qed.

Example happy_run_output :
  In (EvFs (DumpJson "places_with_images.json"
              (JArr [JObj (<["image" := JNull]> Sample.no_url);
                     JObj (<["image" := JStr "place_images/Caffe_Roma_bar.jpg"]>
                             Sample.cafe)])) None)
     (snd (download_social_preview_images Sample.happy "locations.json" [])).
Proof. apply (nth_error_In _ 13). vm_compute. reflexivity. Qed.

(** A display name that is not a string makes [re.sub] raise, and nothing
    catches it. *)
Example numeric_name_aborts :
  fst (process_item Sample.direct
         (JObj (<["Place_Name" := JInt 5]> Sample.nameless)) []) =
    Raise TypeError.
Proof. vm_compute. reflexivity. Qed.

(** * Further properties *)

(** ** The consent pattern *)

Lemma re_search_offset p pre s :
  match_here p s = true -> re_search p (pre ++ s) = true.
Proof.
  intros Hm. induction pre as [|c pre IH]; simpl.
  - destruct s; simpl; rewrite Hm; reflexivity.
  - rewrite IH. apply orb_true_r.
Qed.

(** The pattern of the literal characters of [l]. *)
Lemma match_here_lits l p s :
  match_here (map Lit (list_ascii_of_string l) ++ p) (l ++ s) = match_here p s.
Proof.
  induction l as [|c l IH]; [reflexivity|].
  change (String c l ++ s) with (String c (l ++ s)).
  cbn [list_ascii_of_string map app match_here].
  now rewrite Ascii.eqb_refl.
Qed.

Lemma drop_continuation_app t s :
  all_continuation t = true -> drop_continuation s = s ->
  drop_continuation (t ++ s) = s.
Proof.
  intros Ht Hs. induction t as [|c t IH]; [exact Hs|].
  cbn [all_continuation] in Ht. apply andb_prop in Ht as [Hc Ht].
  change (String c t ++ s) with (String c (t ++ s)).
  cbn [drop_continuation]. rewrite Hc. now apply IH.
Qed.

(** A dot takes a whole character: its first byte and the continuation
    bytes after it. *)
Lemma match_here_dot c t p s :
  c <> newline -> all_continuation t = true -> drop_continuation s = s ->
  match_here (Dot :: p) (String c (t ++ s)) = match_here p s.
Proof.
  intros Hc Ht Hs. apply Ascii.eqb_neq in Hc.
  cbn [match_here]. rewrite Hc. now rewrite drop_continuation_app.
Qed.

(** X1. The pattern of line 59 is searched for, and its two dots stand
    for any character: an action matches as soon as it contains the
    consent URL somewhere, with any character but a newline in the place
    of each of the two dots.  A character is given as its first byte ([a],
    [b]) and the continuation bytes that follow it ([ta], [tb]: none for
    an ASCII character, one to three for any other). *)
Theorem consent_pattern_is_lax (pre suf : string) (a b : ascii) (ta tb : string) :
  a <> newline -> b <> newline ->
  all_continuation ta = true -> all_continuation tb = true ->
  re_search consent_pattern
    (pre ++ "https://consent" ++
     String a (ta ++ "google" ++ String b (tb ++ "com/save" ++ suf)))
    = true.
Proof.
  intros Ha Hb Hta Htb. apply re_search_offset.
  change consent_pattern
    with (map Lit (list_ascii_of_string "https://consent") ++
          Dot :: map Lit (list_ascii_of_string "google") ++
          Dot :: map Lit (list_ascii_of_string "com/save") ++ [])%list.
  rewrite match_here_lits.
  rewrite (match_here_dot a ta) by (assumption || reflexivity).
  rewrite match_here_lits.
  rewrite (match_here_dot b tb) by (assumption || reflexivity).
  rewrite match_here_lits. reflexivity.
Qed.

Lemma consent_pattern_is_lax_witness :
  re_search consent_pattern
    ("http://evil.example/?u=" ++ "https://consent" ++
     String "-" (EmptyString ++ "google" ++
                 String (ascii_of_nat 195)
                   (String (ascii_of_nat 169) EmptyString ++ "com/save" ++ EmptyString)))
    = true.
Proof.
  apply (consent_pattern_is_lax "http://evil.example/?u=" EmptyString
           "-" (ascii_of_nat 195) EmptyString
           (String (ascii_of_nat 169) EmptyString));
    (discriminate || reflexivity).
Defined.

(** ** File names and paths *)

Lemma sanitize_chars s :
  Forall (fun c => kept_char c = true) (list_ascii_of_string (sanitize s)).
Proof.
  induction s as [|c s IH]; [constructor|].
  rewrite sanitize_cons. destruct (is_illegal c) eqn:Hc; [exact IH|].
  simpl. constructor; [|exact IH].
  unfold kept_char. destruct (Ascii.eqb c " ") eqn:Hsp.
  - reflexivity.
  - now rewrite Hc, Hsp.
Qed.

Lemma sanitize_kept s :
  Forall (fun c => kept_char c = true) (list_ascii_of_string s) ->
  sanitize s = s.
Proof.
  induction s as [|c s IH]; [reflexivity|].
  simpl. intros Hall. apply Forall_cons in Hall as [Hc Hs].
  rewrite sanitize_cons. unfold kept_char in Hc.
  apply andb_prop in Hc as [Hi Hsp].
  apply negb_true_iff in Hi, Hsp. rewrite Hi, Hsp. now rewrite IH.
Qed.

(** X2. A name is left unchanged by the sanitisation exactly when it has
    none of the deleted characters and no space; in particular every
    byte of a non-ASCII character is kept. *)
Theorem sanitize_fixed_points (s : string) :
  sanitize s = s <->
  Forall (fun c => kept_char c = true) (list_ascii_of_string s).
Proof.
  split.
  - intros Heq. rewrite <- Heq. apply sanitize_chars.
  - apply sanitize_kept.
Qed.

(** X3. Sanitising distributes over concatenation: each character is
    treated on its own, whatever surrounds it. *)
Theorem sanitize_app (s1 s2 : string) :
  sanitize (s1 ++ s2) = sanitize s1 ++ sanitize s2.
Proof.
  induction s1 as [|c s1 IH]; [reflexivity|].
  change (String c s1 ++ s2) with (String c (s1 ++ s2)).
  rewrite !sanitize_cons, IH. destruct (is_illegal c); reflexivity.
Qed.

Lemma kept_char_not_slash c : kept_char c = true -> c <> "/"%char.
Proof. intros Hk ->. discriminate Hk. Qed.

(** X4. The image file of a record is always a direct child of the output
    directory: its path is place_images/ followed by the sanitised name
    and .jpg, and the sanitised name has no slash and no backslash, so no
    display name can direct the file elsewhere. *)
Theorem image_path_in_output_dir (name : string) :
  image_path_of name = "place_images/" ++ sanitize name ++ ".jpg" /\
  Forall (fun c => c <> "/"%char /\ c <> ascii_of_nat 92)
    (list_ascii_of_string (sanitize name)).
Proof.
  split.
  - unfold image_path_of, os_path_join.
    pose proof (sanitize_chars name) as Hk.
    destruct (sanitize name) as [|c s]; [reflexivity|].
    apply Forall_cons in Hk as [Hc _]. apply kept_char_not_slash in Hc.
    change (String c s ++ ".jpg") with (String c (s ++ ".jpg")).
    assert (Hstart : startswith_slash (String c (s ++ ".jpg")) = false).
    { destruct c as [[] [] [] [] [] [] [] []]; try reflexivity. congruence. }
    rewrite Hstart. reflexivity.
  - eapply Forall_impl; [apply sanitize_chars|].
    intros c Hc. split; intros ->; discriminate Hc.
Qed.

(** ** The shape of one iteration *)

Lemma checked_inv o :
  (exists r, checked o = Ok r /\ o = Ok r /\ ~ error_status r) \/
  (exists e, checked o = Raise e /\
     (o = Raise e \/ exists r, o = Ok r /\ error_status r /\ e = HTTPError)).
Proof.
  destruct o as [r|e]; simpl; [|right; eauto].
  unfold error_status.
  destruct (400 <=? status_code r) eqn:H1;
    destruct (status_code r <? 600) eqn:H2; simpl;
    try (left; exists r; repeat split; auto; lia).
  right. exists HTTPError. split; [reflexivity|]. right. exists r.
  repeat split; lia.
Qed.

(** The event lists [fetch_final_soup] can produce. *)
Lemma fetch_inv w u n h r ev :
  fetch_final_soup w u n h = (r, ev) ->
  let get := get_request u in
  let started := EvPrint (MsgProcessing n) in
  exists o1,
    (ev = [started; EvRequest get o1] /\
     ((exists e, checked o1 = Raise e /\ r = Raise e) \/
      (exists r1, checked o1 = Ok r1 /\ r = Ok (html_parser w (text r1)) /\
         last (find_all "form" [("action", MatchRegex consent_pattern)]
                 (html_parser w (text r1))) = None))) \/
    (exists r1 form action o2,
       checked o1 = Ok r1 /\
       last (find_all "form" [("action", MatchRegex consent_pattern)]
               (html_parser w (text r1))) = Some form /\
       tag_get form "action" = Some action /\
       re_search consent_pattern action = true /\
       let post := post_request action (collect_form_data form) in
       ((ev = [started; EvRequest get o1; EvPrint MsgConsentDetected;
               EvRequest post o2] /\
         exists e, checked o2 = Raise e /\ r = Raise e) \/
        (exists o3 r2,
           checked o2 = Ok r2 /\
           ev = [started; EvRequest get o1; EvPrint MsgConsentDetected;
                 EvRequest post o2; EvPrint MsgConsentSubmitted;
                 EvRequest get o3] /\
           ((exists e, checked o3 = Raise e /\ r = Raise e) \/
            (exists r3, checked o3 = Ok r3 /\ r = Ok (html_parser w (text r3))))))).
Proof.
  intros Hrun. cbv zeta. rewrite fetch_run_first in Hrun. cbv zeta in Hrun.
  match type of Hrun with
  | context [checked ?o] => exists o; destruct (checked o) as [r1|e] eqn:Ho1
  end.
  2:{ injection Hrun; intros; subst. left. split; [reflexivity|]. left. eauto. }
  destruct (last _) as [form|] eqn:Hlast.
  2:{ injection Hrun; intros; subst. left. split; [reflexivity|]. right.
      exists r1. auto. }
  right. destruct (consent_form_has_action _ _ Hlast) as (action & Haction & Hre).
  rewrite (consent_run _ _ _ _ _ Haction) in Hrun. cbv zeta in Hrun.
  match type of Hrun with
  | context [checked (http w ?hh (post_request ?a ?d))] =>
      exists r1, form, action, (http w hh (post_request a d));
      destruct (checked (http w hh (post_request a d))) as [r2|e] eqn:Ho2
  end.
  2:{ simpl in Hrun. injection Hrun; intros; subst.
      repeat (split; [reflexivity || assumption|]). cbv zeta. left.
      split; [reflexivity|]. eauto. }
  repeat (split; [reflexivity || assumption|]). cbv zeta. right.
  match type of Hrun with
  | context [checked (http w ?hh (get_request ?a))] =>
      exists (http w hh (get_request a)), r2;
      destruct (checked (http w hh (get_request a))) as [r3|e] eqn:Ho3
  end;
    simpl in Hrun; injection Hrun; intros; subst;
    (split; [reflexivity|]); (split; [reflexivity|]); eauto.
Qed.

(** The event lists [download_image] can produce. *)
Lemma download_image_inv w item place_name u h r ev :
  download_image w item place_name u h = (r, ev) ->
  (is_str place_name = false /\ r = Raise TypeError /\ ev = []) \/
  (exists s o,
     place_name = JStr s /\
     let req := get_request (JStr u) in
     let file resp := WriteBytes (image_path_of s) (content resp) in
     ((exists e, checked o = Raise e /\ r = Raise e /\ ev = [EvRequest req o]) \/
      (exists resp e,
         checked o = Ok resp /\ r = Raise e /\
         ev = [EvRequest req o; EvFs (file resp) (Some e)]) \/
      (exists resp,
         checked o = Ok resp /\
         r = Ok (JObj (<["image" := JStr (image_path_of s)]> item)) /\
         ev = [EvRequest req o; EvFs (file resp) None;
               EvPrint (MsgSuccess place_name)]))).
Proof.
  unfold download_image, session_get. intros Hrun.
  apply bind_inv in Hrun as [(e & Hrun & ->)|(name & ev1 & ev2 & H1 & Hrun & ->)].
  { unfold sanitized_name_of in Hrun. destruct place_name; try discriminate Hrun;
      injection Hrun; intros; subst; left; auto. }
  unfold sanitized_name_of in H1.
  destruct place_name as [| | | |s| |]; try discriminate H1.
  injection H1; intros; subst. clear H1. right.
  rewrite checked_send in Hrun. fold (get_request (JStr u)) in Hrun.
  match type of Hrun with
  | context [checked ?o] => exists s, o; split; [reflexivity|];
      destruct (checked o) as [resp|e] eqn:Ho
  end.
  2:{ injection Hrun; intros; subst. left. eauto. }
  right.
  set (hh := (_ ++ [EvRequest _ _])%list) in Hrun.
  match type of Hrun with
  | context [fs_do w ?op] => destruct (fs_do w op hh) as [rf evf] eqn:Hfs
  end.
  unfold bind in Hrun. rewrite Hfs in Hrun.
  apply fs_do_inv in Hfs as [[-> ->]|(e & -> & ->)];
    simpl in Hrun; injection Hrun; intros; subst.
  - right. exists resp. auto.
  - left. exists resp, e. auto.
Qed.

Lemma locate_inv w soup item place_name h r ev :
  locate_and_download w soup item place_name h = (r, ev) ->
  (r = Ok (JObj (<["image" := JNull]> item)) /\
   ev = [EvPrint (MsgWarningNoImage place_name)]) \/
  (exists t u,
     find_image_tag soup = Some t /\ tag_get t "content" = Some u /\
     u <> EmptyString /\ download_image w item place_name u h = (r, ev)).
Proof.
  unfold locate_and_download. intros Hrun.
  destruct (find_image_tag soup) as [t|];
    [|injection Hrun; intros; subst; auto].
  destruct (tag_get t "content") as [c|] eqn:Hc;
    [|injection Hrun; intros; subst; auto].
  destruct (String.eqb_spec c EmptyString);
    [injection Hrun; intros; subst; auto|].
  right. exists t, c. auto.
Qed.

(** An iteration with a source URL: the body of the [try], then the
    [except] clause if the body raised an exception of requests. *)
Lemma iteration_inv w item h r ev :
  truthy (dict_get item "Google_Maps") = true ->
  process_item w (JObj item) h = (r, ev) ->
  exists rb evb ev3,
    bind (fetch_final_soup w (dict_get item "Google_Maps") (place_name_of item))
      (fun soup => locate_and_download w soup item (place_name_of item)) h
      = (rb, evb) /\
    ev = (evb ++ ev3)%list /\
    ((r = rb /\ ev3 = [] /\
      forall e, rb = Raise e -> is_RequestException e = false) \/
     (exists e, rb = Raise e /\ is_RequestException e = true /\
        r = Ok (JObj (<["image" := JNull]> item)) /\
        (ev3 = [EvPrint (MsgErrorTimeout (place_name_of item))] \/
         ev3 = [EvPrint (MsgErrorFailed (place_name_of item) e)]))).
Proof.
  intros Hurl Hrun. rewrite process_item_truthy in Hrun by exact Hurl.
  fold (place_name_of item) in Hrun.
  apply try_except_inv in Hrun
    as [(a & Hrun & ->)|[(e & Hrun & Hnone & ->)|(e & k & evb & ev3 & Hrun & Hk & Hrun2 & ->)]].
  - exists (Ok a), ev, []. rewrite app_nil_r.
    split; [exact Hrun|]. split; [reflexivity|]. left.
    repeat split. discriminate.
  - exists (Raise e), ev, []. rewrite app_nil_r.
    split; [exact Hrun|]. split; [reflexivity|]. left.
    repeat split. intros e' [= <-]. now apply on_request_error_none in Hnone.
  - exists (Raise e), evb, ev3.
    split; [exact Hrun|]. split; [reflexivity|]. right. exists e.
    unfold on_request_error in Hk.
    destruct (is_Timeout e) eqn:Ht;
      [|destruct (is_RequestException e) eqn:He; [|done]];
      injection Hk as <-; injection Hrun2; intros; subst;
      repeat split; auto.
    destruct e; done.
Qed.

Lemma body_inv w item u n h rb evb :
  bind (fetch_final_soup w u n)
    (fun soup => locate_and_download w soup item n) h = (rb, evb) ->
  (exists e, fetch_final_soup w u n h = (Raise e, evb) /\ rb = Raise e) \/
  (exists soup ev1 ev2,
     fetch_final_soup w u n h = (Ok soup, ev1) /\
     locate_and_download w soup item n (h ++ ev1)%list = (rb, ev2) /\
     evb = (ev1 ++ ev2)%list).
Proof. apply bind_inv. Qed.

(** ** The outcome of one iteration *)

(** The [try] of lines 48-122 around its body. *)
Lemma try_body_run w item h :
  truthy (dict_get item "Google_Maps") = true ->
  process_item w (JObj item) h =
    match
      bind (fetch_final_soup w (dict_get item "Google_Maps") (place_name_of item))
        (fun soup => locate_and_download w soup item (place_name_of item)) h
    with
    | (Ok it', evb) => (Ok it', evb)
    | (Raise e, evb) => caught item (place_name_of item) e evb
    end.
Proof.
  intros Hurl. rewrite process_item_truthy by exact Hurl.
  fold (place_name_of item). unfold try_except.
  destruct (bind _ _ h) as [[it'|e] evb]; [reflexivity|].
  unfold on_request_error, caught, error_msg.
  destruct (is_Timeout e) eqn:Ht.
  - assert (is_RequestException e = true) as -> by (destruct e; done).
    reflexivity.
  - destruct (is_RequestException e); reflexivity.
Qed.

Lemma locate_run w soup item place_name h :
  locate_and_download w soup item place_name h =
    match usable_image_url soup with
    | Some u => download_image w item place_name u h
    | None =>
        (Ok (JObj (<["image" := JNull]> item)),
         [EvPrint (MsgWarningNoImage place_name)])
    end.
Proof.
  unfold locate_and_download, usable_image_url.
  destruct (find_image_tag soup) as [t|]; [|reflexivity].
  destruct (tag_get t "content") as [c|]; [|reflexivity].
  destruct (String.eqb c EmptyString); reflexivity.
Qed.

Lemma download_image_run w item s u h :
  let req := get_request (JStr u) in
  let o := http w h req in
  download_image w item (JStr s) u h =
    match checked o with
    | Raise e => (Raise e, [EvRequest req o])
    | Ok resp =>
        let file := WriteBytes (image_path_of s) (content resp) in
        match fs w (h ++ [EvRequest req o])%list file with
        | Some e => (Raise e, [EvRequest req o; EvFs file (Some e)])
        | None =>
            (Ok (JObj (<["image" := JStr (image_path_of s)]> item)),
             [EvRequest req o; EvFs file None; EvPrint (MsgSuccess (JStr s))])
        end
    end.
Proof.
  cbv zeta. unfold download_image, sanitized_name_of, session_get.
  rewrite ret_bind, checked_send. fold (get_request (JStr u)).
  destruct (checked _) as [resp|e]; [|reflexivity].
  fold (image_path_of s). unfold bind, fs_do.
  destruct (fs w _ _) as [e|]; reflexivity.
Qed.

Lemma download_image_not_str w item place_name u h :
  is_str place_name = false ->
  download_image w item place_name u h = (Raise TypeError, []).
Proof.
  intros Hn. unfold download_image, sanitized_name_of.
  destruct place_name; try reflexivity. discriminate Hn.
Qed.

(** One iteration with a source URL, from what [fetch_final_soup] gave. *)
Lemma process_item_cases w item h rf evf :
  truthy (dict_get item "Google_Maps") = true ->
  fetch_final_soup w (dict_get item "Google_Maps") (place_name_of item) h
    = (rf, evf) ->
  process_item w (JObj item) h =
    match rf with
    | Raise e => caught item (place_name_of item) e evf
    | Ok soup =>
        match usable_image_url soup with
        | None =>
            (Ok (JObj (<["image" := JNull]> item)),
             evf ++ [EvPrint (MsgWarningNoImage (place_name_of item))])
        | Some u =>
            match place_name_of item with
            | JStr s =>
                let req := get_request (JStr u) in
                let o := http w (h ++ evf) req in
                match checked o with
                | Raise e => caught item (JStr s) e (evf ++ [EvRequest req o])
                | Ok resp =>
                    let file := WriteBytes (image_path_of s) (content resp) in
                    match fs w (h ++ evf ++ [EvRequest req o]) file with
                    | Some e =>
                        caught item (JStr s) e
                          (evf ++ [EvRequest req o; EvFs file (Some e)])
                    | None =>
                        (Ok (JObj (<["image" := JStr (image_path_of s)]> item)),
                         evf ++ [EvRequest req o; EvFs file None;
                                 EvPrint (MsgSuccess (JStr s))])
                    end
                end
            | _ => (Raise TypeError, evf)
            end
        end
    end%list.
Proof.
  intros Hurl Hf. rewrite try_body_run by exact Hurl.
  unfold bind at 1. rewrite Hf. destruct rf as [soup|e]; [|reflexivity].
  rewrite locate_run. destruct (usable_image_url soup) as [u|]; [|reflexivity].
  destruct (place_name_of item) as [| | | |s| |] eqn:Hname;
    try (rewrite download_image_not_str by reflexivity;
         rewrite app_nil_r; reflexivity).
  rewrite download_image_run. cbv zeta.
  destruct (checked _) as [resp|e]; [|reflexivity].
  rewrite <- app_assoc.
  destruct (fs w _ _) as [e|]; reflexivity.
Qed.

(** C5, as the code has it.  The image field is set on four paths: a
    record without a usable source URL is skipped and gets the null
    marker; a page without a usable image URL gives a warning and the
    null marker; an exception of requests, raised by any request of the
    iteration or by the write of the image file, is reported and gives
    the null marker; and a written image file gives its path.  On a
    display name that is not a string (TypeError) and on any other
    exception that is not one of requests (the OSError of a failed
    write, say) no except clause applies: the exception leaves the loop
    with the events so far and the record is left without the field.
    [caught] tells the two kinds of exception apart. *)
Theorem image_field_set_or_run_aborted (w : World) (item : gmap string json)
    (h : list Event) :
  process_item w (JObj item) h =
    (if truthy (dict_get item "Google_Maps") then
      match
        fetch_final_soup w (dict_get item "Google_Maps") (place_name_of item) h
      with
      | (Raise e, evf) => caught item (place_name_of item) e evf
      | (Ok soup, evf) =>
          match usable_image_url soup with
          | None =>
              (Ok (JObj (<["image" := JNull]> item)),
               evf ++ [EvPrint (MsgWarningNoImage (place_name_of item))])
          | Some u =>
              match place_name_of item with
              | JStr s =>
                  let req := get_request (JStr u) in
                  let o := http w (h ++ evf) req in
                  match checked o with
                  | Raise e => caught item (JStr s) e (evf ++ [EvRequest req o])
                  | Ok resp =>
                      let file := WriteBytes (image_path_of s) (content resp) in
                      match fs w (h ++ evf ++ [EvRequest req o]) file with
                      | Some e =>
                          caught item (JStr s) e
                            (evf ++ [EvRequest req o; EvFs file (Some e)])
                      | None =>
                          (Ok (JObj (<["image" := JStr (image_path_of s)]> item)),
                           evf ++ [EvRequest req o; EvFs file None;
                                   EvPrint (MsgSuccess (JStr s))])
                      end
                  end
              | _ => (Raise TypeError, evf)
              end
          end
      end
    else
      (Ok (JObj (<["image" := JNull]> item)),
       [EvPrint (MsgSkipping (place_name_of item))]))%list.
Proof.
  destruct (truthy (dict_get item "Google_Maps")) eqn:Hurl.
  - destruct (fetch_final_soup w _ _ h) as [rf evf] eqn:Hf.
    rewrite (process_item_cases _ _ _ _ _ Hurl Hf).
    destruct rf; reflexivity.
  - simpl. rewrite Hurl. reflexivity.
Qed.

(** C5, as the specification has it, fails: when the image file cannot
    be written, the iteration ends with the OSError of the write and the
    record is left without the field. *)
Lemma failed_write_leaves_field_unset :
  ~ image_field_as_specified MoreSamples.disk_full Sample.cafe [].
Proof.
  intros (it' & ev & Hrun & _).
  assert (Hout : fst (process_item MoreSamples.disk_full (JObj Sample.cafe) [])
                 = Raise OSError) by (vm_compute; reflexivity).
  rewrite Hrun in Hout. discriminate Hout.
Qed.

Lemma fetch_starts w u n h r ev :
  fetch_final_soup w u n h = (r, ev) ->
  exists o tail,
    ev = EvPrint (MsgProcessing n) :: EvRequest (get_request u) o :: tail.
Proof.
  intros Hrun. apply fetch_inv in Hrun. cbv zeta in Hrun.
  destruct Hrun as (o1 & [(-> & _)|(r1 & form & action & o2 & _ & _ & _ & _ & Hev)]).
  - eauto.
  - cbv zeta in Hev. destruct Hev as [(-> & _)|(o3 & r2 & _ & -> & _)]; eauto.
Qed.

(** X5. A record is skipped exactly when its source URL is false in the
    sense of Python (absent, null, empty, zero, false, an empty list or
    dict): then the only event is the skip message.  Any other value,
    string or not, is passed to [session.get], and that GET is the first
    request of the iteration. *)
Theorem url_truthiness_decides_skip (w : World) (item : gmap string json)
    (h : list Event) :
  if truthy (dict_get item "Google_Maps") then
    exists o tail,
      snd (process_item w (JObj item) h) =
        EvPrint (MsgProcessing (place_name_of item))
          :: EvRequest (get_request (dict_get item "Google_Maps")) o :: tail
  else
    process_item w (JObj item) h =
      (Ok (JObj (<["image" := JNull]> item)),
       [EvPrint (MsgSkipping (place_name_of item))]).
Proof.
  destruct (truthy (dict_get item "Google_Maps")) eqn:Hurl.
  - destruct (process_item w (JObj item) h) as [r ev] eqn:Hrun.
    apply iteration_inv in Hrun as (rb & evb & ev3 & Hbody & -> & _);
      [|exact Hurl].
    apply body_inv in Hbody
      as [(e & Hf & _)|(soup & ev1 & ev2 & Hf & _ & ->)];
      apply fetch_starts in Hf as (o & tail & ->); simpl; eauto.
  - simpl. rewrite Hurl. reflexivity.
Qed.

Lemma count_requests_app ev1 ev2 :
  count_requests (ev1 ++ ev2) = (count_requests ev1 + count_requests ev2)%nat.
Proof. unfold count_requests. now rewrite List.filter_app, List.length_app. Qed.

Lemma count_posts_app ev1 ev2 :
  count_posts (ev1 ++ ev2) = (count_posts ev1 + count_posts ev2)%nat.
Proof. unfold count_posts. now rewrite List.filter_app, List.length_app. Qed.

Lemma fetch_counts w u n h r ev :
  fetch_final_soup w u n h = (r, ev) ->
  (count_requests ev <= 3)%nat /\ (count_posts ev <= 1)%nat.
Proof.
  intros Hrun. apply fetch_inv in Hrun. cbv zeta in Hrun.
  destruct Hrun as (o1 & [(-> & _)|(r1 & form & action & o2 & _ & _ & _ & _ & Hev)]).
  - cbv. lia.
  - cbv zeta in Hev. destruct Hev as [(-> & _)|(o3 & r2 & _ & -> & _)]; cbv; lia.
Qed.

Lemma locate_counts w soup item n h r ev :
  locate_and_download w soup item n h = (r, ev) ->
  (count_requests ev <= 1)%nat /\ count_posts ev = 0%nat.
Proof.
  intros Hrun.
  apply locate_inv in Hrun as [(_ & ->)|(t & u & _ & _ & _ & Hrun)].
  { cbv. lia. }
  apply download_image_inv in Hrun as [(_ & _ & ->)|(s & o & _ & Hev)].
  { cbv. lia. }
  cbv zeta in Hev.
  destruct Hev as [(e & _ & _ & ->)|[(resp & e & _ & _ & ->)|(resp & _ & _ & ->)]];
    cbv; lia.
Qed.

(** X6. One iteration makes at most four requests (the first GET, the
    consent POST, the second GET and the image GET) and at most one of
    them is a POST: nothing is retried, and a consent form on the page
    fetched again is not submitted a second time. *)
Theorem at_most_four_requests (w : World) (item : gmap string json)
    (h : list Event) :
  (count_requests (snd (process_item w (JObj item) h)) <= 4)%nat /\
  (count_posts (snd (process_item w (JObj item) h)) <= 1)%nat.
Proof.
  destruct (truthy (dict_get item "Google_Maps")) eqn:Hurl.
  2:{ simpl. rewrite Hurl. cbv. lia. }
  destruct (process_item w (JObj item) h) as [r ev] eqn:Hrun.
  apply iteration_inv in Hrun as (rb & evb & ev3 & Hbody & -> & Hhandler);
    [|exact Hurl].
  assert (count_requests ev3 = 0%nat /\ count_posts ev3 = 0%nat) as [Hr3 Hp3].
  { destruct Hhandler as [(_ & -> & _)|(e & _ & _ & _ & [-> | ->])]; auto. }
  simpl. rewrite count_requests_app, count_posts_app, Hr3, Hp3.
  apply body_inv in Hbody
    as [(e & Hf & _)|(soup & ev1 & ev2 & Hf & Hl & ->)].
  - apply fetch_counts in Hf. lia.
  - apply fetch_counts in Hf. apply locate_counts in Hl.
    rewrite count_requests_app, count_posts_app. lia.
Qed.

(** ** How requests are sent *)

Lemma session_request_get u o : session_request (EvRequest (get_request u) o).
Proof. repeat split. Qed.

Lemma emits_session_dict w item :
  emits session_request (process_item w (JObj item)).
Proof.
  intros h r ev Hrun.
  destruct (truthy (dict_get item "Google_Maps")) eqn:Hurl.
  2:{ simpl in Hrun. rewrite Hurl in Hrun. injection Hrun; intros; subst.
      repeat constructor. }
  apply iteration_inv in Hrun as (rb & evb & ev3 & Hbody & -> & Hhandler);
    [|exact Hurl].
  assert (Hfetch : forall rf evf,
    fetch_final_soup w (dict_get item "Google_Maps") (place_name_of item) h
      = (rf, evf) -> Forall session_request evf).
  { intros rf evf Hf. apply fetch_inv in Hf. cbv zeta in Hf.
    destruct Hf as (o1 & [(-> & _)|(r1 & form & action & o2 & _ & _ & _ & Hre & Hev)]).
    - repeat (constructor; [exact I || apply session_request_get|]). constructor.
    - assert (Hpost : session_request
                (EvRequest (post_request action (collect_form_data form)) o2)).
      { repeat split. exists action. auto. }
      cbv zeta in Hev. destruct Hev as [(-> & _)|(o3 & r2 & _ & -> & _)];
        repeat (constructor;
                [exact I || apply session_request_get || exact Hpost|]);
        constructor. }
  apply Forall_app. split.
  - apply body_inv in Hbody
      as [(e & Hf & _)|(soup & ev1 & ev2 & Hf & Hl & ->)]; [eauto|].
    apply Forall_app. split; [eauto|].
    apply locate_inv in Hl as [(_ & ->)|(t & u & _ & _ & _ & Hl)].
    { repeat constructor. }
    apply download_image_inv in Hl as [(_ & _ & ->)|(s & o & _ & Hev)].
    { constructor. }
    cbv zeta in Hev.
    destruct Hev as [(e & _ & _ & ->)|[(resp & e & _ & _ & ->)|(resp & _ & _ & ->)]];
      repeat (constructor; [exact I || apply session_request_get|]);
      constructor.
  - destruct Hhandler as [(_ & -> & _)|(e & _ & _ & _ & [-> | ->])];
      repeat constructor.
Qed.

Lemma emits_session_item w it : emits session_request (process_item w it).
Proof.
  destruct it; try apply emits_raise. apply emits_session_dict.
Qed.

(** X7. Every request of a run is sent with the session headers and
    with a timeout of 15 seconds; a GET carries no form data; and a POST
    only ever goes to a form action in which the consent pattern is
    found. *)
Theorem requests_are_session_requests (w : World) (path : string)
    (h : list Event) :
  Forall session_request (snd (download_social_preview_images w path h)).
Proof.
  destruct (download_social_preview_images w path h) as [r ev] eqn:Hrun.
  simpl. revert h r ev Hrun.
  change (emits session_request (download_social_preview_images w path)).
  unfold download_social_preview_images.
  apply emits_bind; [apply emits_fs_do; intros; exact I|]. intros _.
  apply emits_bind.
  { unfold load_input. apply emits_try_except.
    - apply emits_bind; [|intros; apply emits_ret].
      intros h r ev [= <- <-]. repeat constructor.
    - intros e k Hk. destruct e; try discriminate Hk; injection Hk as <-;
        (apply emits_bind; [apply emits_print; exact I|]); intros;
        apply emits_ret. }
  intros [loaded|]; [|apply emits_ret].
  apply emits_bind; [apply emits_lift|]. intros n.
  apply emits_bind; [apply emits_print; exact I|]. intros _.
  apply emits_bind.
  { unfold process_all. apply emits_bind; [apply emits_lift|]. intros items.
    apply emits_bind; [apply emits_for_each, emits_session_item|].
    intros; apply emits_ret. }
  intros result.
  apply emits_bind; [apply emits_fs_do; intros; exact I|]. intros _.
  repeat (apply emits_bind; [apply emits_print; exact I|]; intros _).
  apply emits_print. exact I.
Qed.

(** ** The image tag, further *)

Lemma node_matches_meta k v n :
  node_matches "meta" [(k, MatchStr v)] n = true <->
  exists a cs, n = Tag "meta" a cs /\ a !! k = Some v.
Proof.
  destruct n as [nm a cs|s]; simpl.
  2:{ split; [discriminate|]. intros (a & cs & [=] & _). }
  rewrite andb_true_r. split.
  - intros Hm. apply andb_prop in Hm as [Hn Ha].
    apply String.eqb_eq in Hn as ->.
    destruct (a !! k) as [v'|] eqn:Hk; [|discriminate].
    apply String.eqb_eq in Ha as ->. eauto.
  - intros (a' & cs' & [= -> -> ->] & Ha). rewrite Ha. simpl.
    now rewrite String.eqb_refl.
Qed.

Lemma find_none_no_meta k v soup :
  find "meta" [(k, MatchStr v)] soup = None <-> ~ has_meta k v soup.
Proof.
  unfold find, find_all, has_meta. split.
  - intros Hnone (a & cs & Hin & Ha).
    assert (Hf : In (Tag "meta" a cs)
                   (List.filter (node_matches "meta" [(k, MatchStr v)])
                      (descendants soup))).
    { apply filter_In. split; [exact Hin|].
      apply node_matches_meta. eauto. }
    destruct (List.filter _ _); [destruct Hf|discriminate].
  - intros Hno.
    destruct (List.filter _ _) as [|n l] eqn:Hfilter; [reflexivity|].
    exfalso. apply Hno.
    assert (Hin : In n (List.filter (node_matches "meta" [(k, MatchStr v)])
                          (descendants soup))).
    { rewrite Hfilter. simpl. auto. }
    apply filter_In in Hin as [Hin Hm].
    apply node_matches_meta in Hm as (a & cs & -> & Ha). eauto.
Qed.

(** X8. When the final page has no meta tag with itemprop=image, the
    first meta tag with property=og:image is used: every request made after
    the page was fetched is a GET of its content, and that request is made
    whenever the display name is a string. *)
Theorem og_image_is_the_fallback (w : World) (item : gmap string json)
    (h : list Event) (soup : Node) (ev1 : list Event) (t : Node) (u : string) :
  truthy (dict_get item "Google_Maps") = true ->
  fetch_final_soup w (dict_get item "Google_Maps") (place_name_of item) h
    = (Ok soup, ev1) ->
  ~ has_meta "itemprop" "image" soup ->
  find "meta" [("property", MatchStr "og:image")] soup = Some t ->
  tag_get t "content" = Some u -> u <> EmptyString ->
  exists ev2,
    snd (process_item w (JObj item) h) = (ev1 ++ ev2)%list /\
    (forall req o, In (EvRequest req o) ev2 -> req = get_request (JStr u)) /\
    (forall s, place_name_of item = JStr s ->
       exists o, In (EvRequest (get_request (JStr u)) o) ev2).
Proof.
  intros Hurl Hfetch Hno Ht Hu Hne.
  destruct (process_item w (JObj item) h) as [r ev] eqn:Hrun.
  destruct (process_item_after_fetch _ _ _ _ _ _ _ Hurl Hfetch Hrun)
    as (rb & ev2 & ev3 & Hl & -> & Hhandler).
  apply find_none_no_meta in Hno.
  rewrite (locate_with_content _ _ _ _ t u) in Hl;
    [|unfold find_image_tag; now rewrite Hno|exact Hu|exact Hne].
  apply download_image_requests in Hl as [Honly Hsome].
  exists (ev2 ++ ev3)%list. split; [reflexivity|]. split.
  - intros req o Hin. apply in_app_iff in Hin as [Hin|Hin]; [eauto|].
    destruct Hhandler as [[_ ->]|(e & msg & _ & _ & -> & _)];
      simpl in Hin; intuition discriminate.
  - intros s Hs. destruct (Hsome s Hs) as (o & tail & ->).
    exists o. simpl. auto.
Qed.

Lemma og_image_is_the_fallback_witness :
  exists o,
    In (EvRequest (get_request (JStr Sample.og_url)) o)
       (snd (process_item MoreSamples.og_only (JObj Sample.cafe) [])).
Proof.
  destruct (og_image_is_the_fallback MoreSamples.og_only Sample.cafe []
              MoreSamples.og_only_page
              (snd (fetch_final_soup MoreSamples.og_only
                      (JStr Sample.source_url) (JStr "Caffe Roma: bar?") []))
              (Sample.meta "property" "og:image" Sample.og_url)
              Sample.og_url)
    as (ev2 & Hev & _ & Hsome).
  - vm_compute. reflexivity.
  - vm_compute. reflexivity.
  - apply find_none_no_meta. vm_compute. reflexivity.
  - vm_compute. reflexivity.
  - vm_compute. reflexivity.
  - discriminate.
  - destruct (Hsome "Caffe Roma: bar?") as [o Hin]; [vm_compute; reflexivity|].
    exists o. rewrite Hev. apply in_app_iff. auto.
Defined.

(** X9. When the final page has neither a meta tag with itemprop=image
    nor one with property=og:image, the record gets the null marker and
    the only event after the page was fetched is the warning. *)
Theorem no_image_tag_is_not_found (w : World) (item : gmap string json)
    (h : list Event) (soup : Node) (ev1 : list Event) :
  truthy (dict_get item "Google_Maps") = true ->
  fetch_final_soup w (dict_get item "Google_Maps") (place_name_of item) h
    = (Ok soup, ev1) ->
  ~ has_meta "itemprop" "image" soup ->
  ~ has_meta "property" "og:image" soup ->
  process_item w (JObj item) h =
    (Ok (JObj (<["image" := JNull]> item)),
     (ev1 ++ [EvPrint (MsgWarningNoImage (place_name_of item))])%list).
Proof.
  intros Hurl Hfetch Hno1 Hno2.
  apply find_none_no_meta in Hno1, Hno2.
  rewrite process_item_truthy by exact Hurl. fold (place_name_of item).
  unfold try_except. erewrite bind_ok by exact Hfetch.
  unfold locate_and_download, find_image_tag. rewrite Hno1, Hno2. reflexivity.
Qed.

Lemma no_image_tag_is_not_found_witness :
  fst (process_item MoreSamples.plain (JObj Sample.cafe) []) =
    Ok (JObj (<["image" := JNull]> Sample.cafe)).
Proof.
  rewrite (no_image_tag_is_not_found MoreSamples.plain Sample.cafe []
             MoreSamples.plain_page
             (snd (fetch_final_soup MoreSamples.plain
                     (JStr Sample.source_url) (JStr "Caffe Roma: bar?") []))).
  - reflexivity.
  - vm_compute. reflexivity.
  - vm_compute. reflexivity.
  - apply find_none_no_meta. vm_compute. reflexivity.
  - apply find_none_no_meta. vm_compute. reflexivity.
Defined.

(** X10. A display name that is not a string (null, a number, a list)
    makes the iteration raise TypeError as soon as an image URL has been
    found: no image is requested, nothing catches the exception, and the
    record is left without an image field. *)
Theorem non_string_name_aborts (w : World) (item : gmap string json)
    (h : list Event) (soup : Node) (ev1 : list Event) (t : Node) (u : string) :
  truthy (dict_get item "Google_Maps") = true ->
  fetch_final_soup w (dict_get item "Google_Maps") (place_name_of item) h
    = (Ok soup, ev1) ->
  find_image_tag soup = Some t ->
  tag_get t "content" = Some u -> u <> EmptyString ->
  is_str (place_name_of item) = false ->
  process_item w (JObj item) h = (Raise TypeError, ev1).
Proof.
  intros Hurl Hfetch Ht Hu Hne Hname.
  rewrite process_item_truthy by exact Hurl. fold (place_name_of item).
  unfold try_except. erewrite bind_ok by exact Hfetch.
  rewrite (locate_with_content _ _ _ _ t u) by assumption.
  unfold download_image.
  destruct (place_name_of item); try discriminate Hname;
    simpl; rewrite app_nil_r; reflexivity.
Qed.

Lemma non_string_name_aborts_witness :
  fst (process_item Sample.direct (JObj MoreSamples.null_name) []) =
    Raise TypeError.
Proof.
  rewrite (non_string_name_aborts Sample.direct MoreSamples.null_name []
             Sample.place_page
             (snd (fetch_final_soup Sample.direct
                     (JStr Sample.source_url) JNull []))
             (Sample.meta "itemprop" "image" Sample.image_url)
             Sample.image_url).
  - reflexivity.
  - vm_compute. reflexivity.
  - vm_compute. reflexivity.
  - vm_compute. reflexivity.
  - vm_compute. reflexivity.
  - discriminate.
  - vm_compute. reflexivity.
Defined.

(** ** The image file *)

Lemma insert_image_inj (item : gmap string json) (a b : json) :
  <["image" := a]> item = <["image" := b]> item -> a = b.
Proof.
  intros Heq.
  assert (H : (<["image" := a]> item) !! "image" = (<["image" := b]> item) !! "image")
    by now rewrite Heq.
  rewrite !lookup_insert_eq in H. congruence.
Qed.

Lemma fetch_writes_nothing w u n h r ev :
  fetch_final_soup w u n h = (r, ev) ->
  Forall (fun e => is_file_event e = false) ev.
Proof. revert h r ev. apply emits_fetch; reflexivity. Qed.

(** What one iteration relates: the file that was written, the bytes that
    were downloaded and the path the record gets. *)
Lemma iteration_file w item h r ev :
  process_item w (JObj item) h = (r, ev) ->
  (forall p b, In (EvFs (WriteBytes p b) None) ev ->
     r = Ok (JObj (<["image" := JStr p]> item)) /\
     exists u resp,
       In (EvRequest (get_request (JStr u)) (Ok resp)) ev /\
       ~ error_status resp /\ b = content resp) /\
  (forall p, r = Ok (JObj (<["image" := JStr p]> item)) ->
     exists b, In (EvFs (WriteBytes p b) None) ev).
Proof.
  intros Hrun.
  destruct (truthy (dict_get item "Google_Maps")) eqn:Hurl.
  2:{ simpl in Hrun. rewrite Hurl in Hrun. injection Hrun; intros; subst.
      split.
      - intros p b [[=]|[]].
      - intros p [= Heq]. apply insert_image_inj in Heq. discriminate. }
  apply iteration_inv in Hrun as (rb & evb & ev3 & Hbody & -> & Hhandler);
    [|exact Hurl].
  assert (Hev3 : forall e, In e ev3 -> is_file_event e = false).
  { destruct Hhandler as [(_ & -> & _)|(e & _ & _ & _ & [-> | ->])];
      intros e' Hin; simpl in Hin; intuition (subst; reflexivity). }
  assert (Hbody' :
    (forall p b, In (EvFs (WriteBytes p b) None) evb ->
       rb = Ok (JObj (<["image" := JStr p]> item)) /\
       exists u resp,
         In (EvRequest (get_request (JStr u)) (Ok resp)) evb /\
         ~ error_status resp /\ b = content resp) /\
    (forall p, rb = Ok (JObj (<["image" := JStr p]> item)) ->
       exists b, In (EvFs (WriteBytes p b) None) evb)).
  { apply body_inv in Hbody
      as [(e & Hf & ->)|(soup & ev1 & ev2 & Hf & Hl & ->)].
    { apply fetch_writes_nothing in Hf. rewrite List.Forall_forall in Hf.
      split; [|discriminate].
      intros p b Hin. apply Hf in Hin. discriminate. }
    apply fetch_writes_nothing in Hf. rewrite List.Forall_forall in Hf.
    assert (Hl' :
      (forall p b, In (EvFs (WriteBytes p b) None) ev2 ->
         rb = Ok (JObj (<["image" := JStr p]> item)) /\
         exists u resp,
           In (EvRequest (get_request (JStr u)) (Ok resp)) ev2 /\
           ~ error_status resp /\ b = content resp) /\
      (forall p, rb = Ok (JObj (<["image" := JStr p]> item)) ->
         exists b, In (EvFs (WriteBytes p b) None) ev2)).
    { apply locate_inv in Hl as [(-> & ->)|(t & u & _ & _ & _ & Hl)].
      { split.
        - intros p b [[=]|[]].
        - intros p [= Heq]. apply insert_image_inj in Heq. discriminate. }
      apply download_image_inv in Hl as [(_ & -> & ->)|(s & o & _ & Hev)].
      { split; [intros p b []|discriminate]. }
      cbv zeta in Hev.
      destruct Hev as [(e & _ & -> & ->)|[(resp & e & _ & -> & ->)|(resp & Ho & -> & ->)]].
      - split; [|discriminate]. intros p b Hin. simpl in Hin.
        intuition discriminate.
      - split; [|discriminate]. intros p b Hin. simpl in Hin.
        intuition discriminate.
      - destruct (checked_inv o) as [(r' & Hc & -> & Hgood)|(e & Hc & _)];
          [|congruence].
        assert (r' = resp) as -> by congruence.
        split.
        + intros p b Hin. simpl in Hin.
          destruct Hin as [[=]|[[= <- <-]|[[=]|[]]]].
          split; [reflexivity|]. exists u, resp. simpl. auto.
        + intros p [= Heq]. apply insert_image_inj in Heq.
          injection Heq as <-. eexists. simpl. eauto. }
    destruct Hl' as [Hfile Hpath]. split.
    - intros p b Hin. apply in_app_iff in Hin as [Hin|Hin].
      { apply Hf in Hin. discriminate. }
      destruct (Hfile p b Hin) as (-> & u & resp & Hreq & Hgood & ->).
      split; [reflexivity|]. exists u, resp. rewrite in_app_iff. auto.
    - intros p Hp. destruct (Hpath p Hp) as [b Hin]. exists b.
      rewrite in_app_iff. auto. }
  destruct Hbody' as [Hfile Hpath]. split.
  - intros p b Hin. apply in_app_iff in Hin as [Hin|Hin].
    2:{ apply Hev3 in Hin. discriminate. }
    destruct (Hfile p b Hin) as (-> & u & resp & Hreq & Hgood & ->).
    destruct Hhandler as [(-> & _ & _)|(e & [=] & _)].
    split; [reflexivity|]. exists u, resp. rewrite in_app_iff. auto.
  - intros p Hp.
    destruct Hhandler as [(-> & _ & _)|(e & _ & _ & -> & _)].
    + destruct (Hpath p Hp) as [b Hin]. exists b. rewrite in_app_iff. auto.
    + injection Hp as Heq. apply insert_image_inj in Heq. discriminate.
Qed.

Lemma checked_not_failed req o resp :
  checked o = Ok resp -> o = Ok resp /\ ~ failed (EvRequest req o).
Proof.
  intros Hc.
  destruct (checked_inv o) as [(r & Hr & -> & Hgood)|(e & He & _)];
    [|congruence].
  assert (r = resp) as -> by congruence. auto.
Qed.

(** A file that was written: the iteration got its final page, the page
    has a usable image URL, the name is a string, and the iteration ends
    with the GET of that URL, answered without an error status, the write
    of the body of that answer, and the success message. *)
Lemma written_file_cases w item h r ev p b :
  process_item w (JObj item) h = (r, ev) ->
  In (EvFs (WriteBytes p b) None) ev ->
  exists soup evf u resp s,
    fetch_final_soup w (dict_get item "Google_Maps") (place_name_of item) h
      = (Ok soup, evf) /\
    usable_image_url soup = Some u /\
    place_name_of item = JStr s /\ p = image_path_of s /\
    ~ error_status resp /\ b = content resp /\
    ev = (evf ++ [EvRequest (get_request (JStr u)) (Ok resp);
                  EvFs (WriteBytes p b) None;
                  EvPrint (MsgSuccess (JStr s))])%list.
Proof.
  intros Hrun Hin.
  destruct (truthy (dict_get item "Google_Maps")) eqn:Hurl.
  2:{ simpl in Hrun. rewrite Hurl in Hrun. injection Hrun; intros; subst.
      destruct Hin as [[=]|[]]. }
  destruct (fetch_final_soup w (dict_get item "Google_Maps")
              (place_name_of item) h) as [rf evf] eqn:Hf.
  rewrite (process_item_cases _ _ _ _ _ Hurl Hf) in Hrun.
  pose proof (fetch_writes_nothing _ _ _ _ _ _ Hf) as Hnone.
  rewrite List.Forall_forall in Hnone.
  assert (Hevf : ~ In (EvFs (WriteBytes p b) None) evf).
  { intros Hin'. apply Hnone in Hin'. discriminate. }
  assert (Hcaught : forall n e l (rest : Prop),
    caught item n e (evf ++ l)%list = (r, ev) ->
    (forall x, In x l -> x <> EvFs (WriteBytes p b) None) -> rest).
  { intros n e l rest Hc Hl. exfalso. unfold caught in Hc.
    destruct (is_RequestException e); injection Hc; intros; subst;
      repeat (apply in_app_iff in Hin as [Hin|Hin]); try contradiction;
      try (apply Hl in Hin; contradiction).
    destruct Hin as [[=]|[]]. }
  destruct rf as [soup|e].
  2:{ rewrite <- (app_nil_r evf) in Hrun.
      apply (Hcaught _ _ _ _ Hrun). intros x []. }
  destruct (usable_image_url soup) as [u|] eqn:Hu.
  2:{ injection Hrun; intros; subst. exfalso.
      apply in_app_iff in Hin as [Hin|[[=]|[]]]. contradiction. }
  destruct (place_name_of item) as [| | | |s| |] eqn:Hname;
    try (injection Hrun; intros; subst; contradiction).
  cbv zeta in Hrun.
  destruct (checked _) as [resp|e] eqn:Ho.
  2:{ apply (Hcaught _ _ _ _ Hrun). intros x [<-|[]]. discriminate. }
  apply (checked_not_failed (get_request (JStr u))) in Ho as [Ho Hgood].
  destruct (fs w _ _) as [e|].
  { apply (Hcaught _ _ _ _ Hrun). intros x [<-|[<-|[]]]; discriminate. }
  injection Hrun; intros; subst.
  apply in_app_iff in Hin as [Hin|Hin]; [contradiction|].
  destruct Hin as [[=]|[[= <- <-]|[[=]|[]]]].
  exists soup, evf, u, resp, s. rewrite Ho.
  repeat (split; [reflexivity || assumption|]).
  split; [|split; reflexivity].
  intros Hbad. apply Hgood. rewrite Ho. exact Hbad.
Qed.

(** X11. The image field of a record is a path exactly when the file at
    that path was written in the iteration.  And a file is written only
    at the end of an iteration that got its final page: the page has a
    usable image URL, the display name is a string and the path is the
    one made from it, and the last three events are the GET of that very
    image URL, answered without an error status, the write of the body of
    that answer, and the success message. *)
Theorem image_path_iff_file_written (w : World) (item : gmap string json)
    (h : list Event) (p : string) :
  (fst (process_item w (JObj item) h) = Ok (JObj (<["image" := JStr p]> item))
   <-> exists b,
         In (EvFs (WriteBytes p b) None) (snd (process_item w (JObj item) h))) /\
  (forall b,
     In (EvFs (WriteBytes p b) None) (snd (process_item w (JObj item) h)) ->
     exists soup evf u resp s,
       fetch_final_soup w (dict_get item "Google_Maps") (place_name_of item) h
         = (Ok soup, evf) /\
       usable_image_url soup = Some u /\
       place_name_of item = JStr s /\ p = image_path_of s /\
       ~ error_status resp /\ b = content resp /\
       snd (process_item w (JObj item) h) =
         (evf ++ [EvRequest (get_request (JStr u)) (Ok resp);
                  EvFs (WriteBytes p b) None;
                  EvPrint (MsgSuccess (JStr s))])%list).
Proof.
  destruct (process_item w (JObj item) h) as [r ev] eqn:Hrun. simpl.
  destruct (iteration_file _ _ _ _ _ Hrun) as [Hfile Hpath].
  split; [split|].
  - apply Hpath.
  - intros [b Hin]. apply (Hfile p b Hin).
  - intros b Hin. apply (written_file_cases _ _ _ _ _ _ _ Hrun Hin).
Qed.

(** ** The form data *)

Lemma add_input_other form_data n k :
  tag_get n "name" <> Some k ->
  add_input form_data n !! k = form_data !! k.
Proof.
  intros Hn. unfold add_input.
  destruct (tag_get n "name") as [name|]; [|reflexivity].
  destruct (String.eqb name EmptyString); [reflexivity|].
  apply lookup_insert_ne. congruence.
Qed.

Lemma fold_add_input_other inputs form_data k :
  (forall m, In m inputs -> tag_get m "name" <> Some k) ->
  fold_left add_input inputs form_data !! k = form_data !! k.
Proof.
  revert form_data. induction inputs as [|m inputs IH]; intros form_data Hno;
    [reflexivity|].
  simpl. rewrite IH by (intros; apply Hno; simpl; auto).
  apply add_input_other, Hno. simpl. auto.
Qed.

(** X12. Of the inputs of the submitted form that share a name, the last
    one in document order gives the value that is posted, the empty
    string when it has no value attribute. *)
Theorem form_data_last_input_wins (form : Node) (pre post : list Node)
    (n : Node) (k : string) :
  find_all "input" [] form = (pre ++ n :: post)%list ->
  tag_get n "name" = Some k -> k <> EmptyString ->
  (forall m, In m post -> tag_get m "name" <> Some k) ->
  collect_form_data form !! k = Some (default EmptyString (tag_get n "value")).
Proof.
  intros Hinputs Hname Hk Hlast. unfold collect_form_data.
  rewrite Hinputs, fold_left_app. simpl.
  rewrite fold_add_input_other by exact Hlast.
  unfold add_input. rewrite Hname.
  destruct (String.eqb_spec k EmptyString); [contradiction|].
  apply lookup_insert_eq.
Qed.

Lemma form_data_last_input_wins_witness :
  collect_form_data MoreSamples.repeated_form !! "gl" = Some "DE".
Proof.
  apply (form_data_last_input_wins MoreSamples.repeated_form
           [Sample.input "hidden" "gl" "IT";
            Tag "input" (<["type" := "submit"]> (<["value" := "Accept all"]> ∅)) [];
            Tag "input" (<["type" := "hidden"]> (<["name" := "bl"]> ∅)) []]
           [] (Sample.input "hidden" "gl" "DE") "gl").
  - vm_compute. reflexivity.
  - vm_compute. reflexivity.
  - discriminate.
  - intros m [].
Defined.

(** X13. Every field that is posted comes from an input of the submitted
    form that has that non-empty name; an input without a name, such as a
    submit button without one, contributes nothing. *)
Theorem form_data_comes_from_named_inputs (form : Node) (k v : string) :
  collect_form_data form !! k = Some v ->
  exists n,
    In n (find_all "input" [] form) /\ tag_get n "name" = Some k /\
    k <> EmptyString /\ v = default EmptyString (tag_get n "value").
Proof.
  unfold collect_form_data.
  induction (find_all "input" [] form) as [|n inputs IH] using rev_ind.
  - simpl. rewrite lookup_empty. discriminate.
  - rewrite fold_left_app. simpl. intros Hk.
    assert (Hcase :
      (tag_get n "name" = Some k /\ k <> EmptyString /\
       v = default EmptyString (tag_get n "value")) \/
      fold_left add_input inputs ∅ !! k = Some v).
    { unfold add_input in Hk.
      destruct (tag_get n "name") as [name|]; [|auto].
      destruct (String.eqb_spec name EmptyString); [auto|].
      destruct (String.eqb_spec name k) as [->|Hne].
      - rewrite lookup_insert_eq in Hk. injection Hk as <-. auto.
      - rewrite lookup_insert_ne in Hk by exact Hne. auto. }
    destruct Hcase as [(Hn & Hne & Hv)|Hprev].
    + exists n. rewrite in_app_iff. simpl. auto.
    + destruct (IH Hprev) as (m & Hin & Hm). exists m.
      rewrite in_app_iff. auto.
Qed.

Lemma form_data_comes_from_named_inputs_witness :
  exists n,
    In n (find_all "input" [] MoreSamples.repeated_form) /\
    tag_get n "name" = Some "bl" /\ "bl" <> EmptyString /\
    EmptyString = default EmptyString (tag_get n "value").
Proof.
  apply (form_data_comes_from_named_inputs MoreSamples.repeated_form "bl"
           EmptyString).
  vm_compute. reflexivity.
Defined.

(** ** Whole runs *)

Lemma fs_do_bind {B} w op (k : unit -> M B) h :
  bind (fs_do w op) k h =
    match fs w h op with
    | None =>
        (fst (k tt (h ++ [EvFs op None])%list),
         EvFs op None :: snd (k tt (h ++ [EvFs op None])%list))
    | Some e => (Raise e, [EvFs op (Some e)])
    end.
Proof.
  unfold bind, fs_do. destruct (fs w h op); [reflexivity|].
  destruct (k tt _); reflexivity.
Qed.

Lemma lift_bind {A B} (x : Res A) (k : A -> M B) h :
  bind (lift x) k h =
    match x with Ok a => k a h | Raise e => (Raise e, []) end.
Proof.
  unfold bind, lift. destruct x as [a|e]; [|reflexivity].
  rewrite app_nil_r. destruct (k a h); reflexivity.
Qed.

(** A run whose output directory could be made and whose input could be
    loaded: the length is taken, the loop runs, and what it returns is
    dumped. *)
Lemma run_loaded w path h loaded :
  fs w h (Makedirs output_dir) = None ->
  load w (h ++ [EvFs (Makedirs output_dir) None])%list path = Ok loaded ->
  download_social_preview_images w path h =
    match py_len loaded with
    | Raise e =>
        (Raise e, [EvFs (Makedirs output_dir) None; EvLoad path (Ok loaded)])
    | Ok n =>
        let before := loaded_events path loaded n in
        match process_all w loaded (h ++ before)%list with
        | (Raise e, evl) => (Raise e, (before ++ evl)%list)
        | (Ok result, evl) =>
            let dump := DumpJson json_output_path result in
            match fs w (h ++ before ++ evl)%list dump with
            | Some e => (Raise e, (before ++ evl ++ [EvFs dump (Some e)])%list)
            | None =>
                (Ok tt, (before ++ evl ++ EvFs dump None :: final_messages)%list)
            end
        end
    end.
Proof.
  intros Hmk Hload. unfold download_social_preview_images.
  rewrite fs_do_bind, Hmk.
  assert (Hin : load_input w path (h ++ [EvFs (Makedirs output_dir) None])%list
                = (Ok (Some loaded), [EvLoad path (Ok loaded)])).
  { unfold load_input, try_except, bind, json_load. rewrite Hload. reflexivity. }
  erewrite bind_ok by exact Hin. cbv beta iota.
  rewrite !lift_bind.
  destruct (py_len loaded) as [n|e]; [|reflexivity].
  rewrite !print_bind. cbv zeta. unfold loaded_events.
  rewrite <- !app_assoc. simpl.
  match goal with
  | |- context [bind (process_all w loaded) ?k ?hh] =>
      assert (Hrest : bind (process_all w loaded) k hh =
        match process_all w loaded hh with
        | (Ok result, evl) =>
            match fs w (hh ++ evl)%list (DumpJson json_output_path result) with
            | Some e =>
                (Raise e,
                 (evl ++ [EvFs (DumpJson json_output_path result) (Some e)])%list)
            | None =>
                (Ok tt,
                 (evl ++ EvFs (DumpJson json_output_path result) None
                         :: final_messages)%list)
            end
        | (Raise e, evl) => (Raise e, evl)
        end);
      [|rewrite Hrest; clear Hrest;
        destruct (process_all w loaded hh) as [[result|e] evl]]
  end.
  - unfold bind at 1.
    destruct (process_all w loaded _) as [[result|e] evl]; [|reflexivity].
    rewrite fs_do_bind.
    match goal with
    | |- context [fs w ?a (DumpJson ?p ?v)] => destruct (fs w a (DumpJson p v))
    end; reflexivity.
  - rewrite <- app_assoc. simpl.
    match goal with
    | |- context [fs w ?a (DumpJson ?p ?v)] => destruct (fs w a (DumpJson p v))
    end; reflexivity.
  - reflexivity.
Qed.

Lemma for_each_ok_dicts w items h ys ev :
  for_each (process_item w) items h = (Ok ys, ev) ->
  Forall (fun it => is_dict it = true) items.
Proof.
  intros Hrun.
  apply (for_each_returns annotated) in Hrun;
    [|apply returns_process_annotated].
  induction Hrun as [|it it' items items' (item & -> & _) _ IH]; constructor;
    [reflexivity|exact IH].
Qed.

(** X14. An item of the input list that is not a record (a string, a
    number, a list, null) makes the run end with an exception, and the
    results file is not written, also not for the records before it. *)
Theorem non_record_item_aborts (w : World) (path : string) (h : list Event)
    (items : list json) (it : json) :
  fs w h (Makedirs output_dir) = None ->
  load w (h ++ [EvFs (Makedirs output_dir) None])%list path = Ok (JArr items) ->
  In it items -> is_dict it = false ->
  exists e ev,
    download_social_preview_images w path h = (Raise e, ev) /\
    forall p v err, ~ In (EvFs (DumpJson p v) err) ev.
Proof.
  intros Hmk Hload Hin Hit.
  rewrite (run_loaded _ _ _ _ Hmk Hload). cbn [py_len]. cbv beta iota zeta.
  destruct (process_all w (JArr items)
              (h ++ loaded_events path (JArr items) (length items))%list)
    as [[result|e] evl] eqn:Hall.
  - exfalso. unfold process_all in Hall. rewrite lift_bind in Hall. simpl in Hall.
    apply bind_inv in Hall as [(e & _ & [=])|(ys & ev1 & ev2 & Hfor & _)].
    apply for_each_ok_dicts in Hfor. rewrite List.Forall_forall in Hfor.
    apply Hfor in Hin. congruence.
  - exists e. eexists. split; [reflexivity|].
    intros p v err Hdump. apply in_app_iff in Hdump as [Hdump|Hdump].
    + simpl in Hdump. intuition discriminate.
    + apply emits_process_all in Hall. rewrite List.Forall_forall in Hall.
      apply Hall in Hdump. exact Hdump.
Qed.

Lemma non_record_item_aborts_witness :
  exists e ev,
    download_social_preview_images MoreSamples.with_string_item "locations.json" []
      = (Raise e, ev) /\
    forall p v err, ~ In (EvFs (DumpJson p v) err) ev.
Proof.
  apply (non_record_item_aborts MoreSamples.with_string_item "locations.json" []
           [JObj Sample.cafe; JStr "oops"] (JStr "oops")).
  - reflexivity.
  - reflexivity.
  - simpl. auto.
  - reflexivity.
Defined.

Lemma for_each_strings w (l : list string) h :
  for_each (process_item w) (map JStr l) h =
    (match l with [] => Ok [] | _ => Raise AttributeError end, []).
Proof. destruct l; reflexivity. Qed.

(** The loop on an input that is not a list: nothing for an empty dict or
    string, AttributeError on the first key or character otherwise. *)
Lemma process_all_non_list w loaded n h :
  is_list loaded = false -> py_len loaded = Ok n ->
  process_all w loaded h =
    (match n with O => Ok loaded | S _ => Raise AttributeError end, []).
Proof.
  intros Hlist Hlen. unfold process_all. rewrite lift_bind.
  destruct loaded as [| | | |s|l|m]; try discriminate.
  - injection Hlen as <-. simpl. unfold bind.
    rewrite for_each_strings. destruct (code_points s); reflexivity.
  - injection Hlen as <-. simpl. unfold bind.
    rewrite <- length_map_to_list.
    replace (map (fun kv : string * json => JStr kv.1) (map_to_list m))
      with (map JStr (map fst (map_to_list m)))
      by (rewrite List.map_map; reflexivity).
    rewrite for_each_strings.
    destruct (map_to_list m); reflexivity.
Qed.

(** X15. When the input file holds valid JSON that is not a list, no
    request is made; the results file is written only for an empty dict
    or an empty string, which is written back as it is. *)
Theorem non_list_input_makes_no_request (w : World) (path : string)
    (h : list Event) (loaded : json) :
  fs w h (Makedirs output_dir) = None ->
  load w (h ++ [EvFs (Makedirs output_dir) None])%list path = Ok loaded ->
  is_list loaded = false ->
  let ev := snd (download_social_preview_images w path h) in
  (forall req o, ~ In (EvRequest req o) ev) /\
  (forall p v err, In (EvFs (DumpJson p v) err) ev ->
     v = loaded /\ py_len loaded = Ok 0%nat).
Proof.
  intros Hmk Hload Hlist. cbv zeta.
  rewrite (run_loaded _ _ _ _ Hmk Hload).
  destruct (py_len loaded) as [n|e] eqn:Hlen.
  2:{ simpl. split; intros; intuition discriminate. }
  cbv zeta. rewrite (process_all_non_list _ _ n) by assumption.
  destruct n as [|n].
  - match goal with
    | |- context [fs w ?a (DumpJson ?p ?v)] => destruct (fs w a (DumpJson p v))
    end; simpl; (split; [intros req o Hin | intros p v err Hin]);
      repeat (destruct Hin as [Hin|Hin];
              [try discriminate Hin;
               try (injection Hin; intros; subst; auto)|]);
      destruct Hin.
  - simpl. split; intros; intuition discriminate.
Qed.

Lemma non_list_input_makes_no_request_witness :
  (forall req o,
     ~ In (EvRequest req o)
          (snd (download_social_preview_images MoreSamples.empty_object
                  "locations.json" []))) /\
  (forall p v err,
     In (EvFs (DumpJson p v) err)
        (snd (download_social_preview_images MoreSamples.empty_object
                "locations.json" [])) ->
     v = JObj ∅ /\ py_len (JObj ∅) = Ok 0%nat).
Proof.
  apply (non_list_input_makes_no_request MoreSamples.empty_object
           "locations.json" [] (JObj ∅)); reflexivity.
Defined.

(** ** What is reported *)

Lemma checked_failed req o e :
  checked o = Raise e -> failed (EvRequest req o) ->
  e = exception_of o /\ is_RequestException e = true.
Proof.
  intros Hc Hfail.
  destruct (checked_inv o) as [(r & Hr & _)|(e' & He' & Hwhy)]; [congruence|].
  assert (e' = e) as -> by congruence.
  destruct Hwhy as [->|(r & -> & _ & ->)]; simpl in *; auto.
Qed.

Lemma caught_request item n e ev :
  is_RequestException e = true ->
  caught item n e ev =
    (Ok (JObj (<["image" := JNull]> item)),
     (ev ++ [EvPrint (error_msg n e)])%list).
Proof. intros He. unfold caught. now rewrite He. Qed.

(** A failed request ends [fetch_final_soup]: it is its last event, and
    its exception is the one raised. *)
Lemma fetch_failed w u n h rf evf req o :
  fetch_final_soup w u n h = (rf, evf) ->
  In (EvRequest req o) evf -> failed (EvRequest req o) ->
  rf = Raise (exception_of o) /\ is_RequestException (exception_of o) = true /\
  exists before, evf = (before ++ [EvRequest req o])%list.
Proof.
  intros Hf Hin Hfail. apply fetch_inv in Hf. cbv zeta in Hf.
  destruct Hf as (o1 & [(-> & Hfirst)|(r1 & form & action & o2 & Ho1 & _ & _ & _ & Hev)]).
  - destruct Hin as [[=]|[[= <- <-]|[]]].
    destruct Hfirst as [(e & He & ->)|(r1 & Ho1 & _)].
    + destruct (checked_failed _ _ _ He Hfail) as [-> Hreq].
      repeat split; [exact Hreq|]. now exists [EvPrint (MsgProcessing n)].
    + now apply (checked_not_failed (get_request u)) in Ho1 as [_ Hgood].
  - apply (checked_not_failed (get_request u)) in Ho1 as [_ Hgood1].
    destruct Hev as [(-> & e & He & ->)|(o3 & r2 & Ho2 & -> & Hlast)].
    + destruct Hin as [[=]|[[= <- <-]|[[=]|[[= <- <-]|[]]]]]; [contradiction|].
      destruct (checked_failed _ _ _ He Hfail) as [-> Hreq].
      repeat split; [exact Hreq|].
      now exists [EvPrint (MsgProcessing n); EvRequest (get_request u) o1;
                  EvPrint MsgConsentDetected].
    + apply (checked_not_failed (post_request action (collect_form_data form)))
        in Ho2 as [_ Hgood2].
      destruct Hin
        as [[=]|[[= <- <-]|[[=]|[[= <- <-]|[[=]|[[= <- <-]|[]]]]]]];
        try contradiction.
      destruct Hlast as [(e & He & ->)|(r3 & Ho3 & _)].
      * destruct (checked_failed _ _ _ He Hfail) as [-> Hreq].
        repeat split; [exact Hreq|].
        now exists [EvPrint (MsgProcessing n); EvRequest (get_request u) o1;
                    EvPrint MsgConsentDetected;
                    EvRequest (post_request action (collect_form_data form)) o2;
                    EvPrint MsgConsentSubmitted].
      * now apply (checked_not_failed (get_request u)) in Ho3 as [_ Hgood].
Qed.

(** X17. A request of an iteration that failed is the last thing the
    iteration did before its error message, and the message is the one
    for the exception of that very request: the exception the request
    raised, or the HTTPError that [raise_for_status] makes of an error
    status; the timeout message when that exception is a timeout, and
    otherwise the message that carries it.  The record gets the null
    marker. *)
Theorem failed_request_is_reported (w : World) (item : gmap string json)
    (h : list Event) (r : Res json) (ev : list Event)
    (req : Request) (o : Res Response) :
  process_item w (JObj item) h = (r, ev) ->
  In (EvRequest req o) ev -> failed (EvRequest req o) ->
  r = Ok (JObj (<["image" := JNull]> item)) /\
  exists before,
    ev = (before ++
          [EvRequest req o;
           EvPrint (error_msg (place_name_of item) (exception_of o))])%list.
Proof.
  intros Hrun Hin Hfail.
  destruct (truthy (dict_get item "Google_Maps")) eqn:Hurl.
  2:{ simpl in Hrun. rewrite Hurl in Hrun. injection Hrun; intros; subst.
      destruct Hin as [[=]|[]]. }
  destruct (fetch_final_soup w (dict_get item "Google_Maps")
              (place_name_of item) h) as [rf evf] eqn:Hf.
  rewrite (process_item_cases _ _ _ _ _ Hurl Hf) in Hrun.
  pose proof (fetch_failed _ _ _ _ _ _ req o Hf) as Hfetch.
  assert (Hcaught : forall e before,
    caught item (place_name_of item) e (before ++ [EvRequest req o])%list
      = (r, ev) ->
    e = exception_of o -> is_RequestException e = true ->
    r = Ok (JObj (<["image" := JNull]> item)) /\
    exists before,
      ev = (before ++
            [EvRequest req o;
             EvPrint (error_msg (place_name_of item) (exception_of o))])%list).
  { intros e before Hc -> Hreq. rewrite caught_request in Hc by exact Hreq.
    injection Hc; intros; subst. split; [reflexivity|]. exists before.
    now rewrite <- app_assoc. }
  destruct rf as [soup|e].
  2:{ assert (Hin' : In (EvRequest req o) evf).
      { unfold caught in Hrun.
        destruct (is_RequestException e); injection Hrun; intros; subst;
          [|exact Hin].
        apply in_app_iff in Hin as [Hin|[[=]|[]]]. exact Hin. }
      destruct (Hfetch Hin' Hfail) as ([= ->] & Hreq & before & ->).
      now apply (Hcaught (exception_of o) before). }
  assert (Hevf : ~ In (EvRequest req o) evf).
  { intros Hin'. now destruct (Hfetch Hin' Hfail) as ([=] & _). }
  destruct (usable_image_url soup) as [u|].
  2:{ injection Hrun; intros; subst.
      apply in_app_iff in Hin as [Hin|[[=]|[]]]. contradiction. }
  destruct (place_name_of item) as [| | | |s| |] eqn:Hname;
    try (injection Hrun; intros; subst; contradiction).
  cbv zeta in Hrun.
  destruct (checked _) as [resp|e] eqn:Ho.
  - apply (checked_not_failed (get_request (JStr u))) in Ho as [_ Hgood].
    exfalso.
    destruct (fs w _ _) as [e|];
      [unfold caught in Hrun; destruct (is_RequestException e)|];
      injection Hrun; intros; subst;
      repeat (apply in_app_iff in Hin as [Hin|Hin]); try contradiction;
      simpl in Hin;
      repeat (destruct Hin as [Hin|Hin]; try discriminate Hin;
              try contradiction);
      injection Hin; intros; subst; contradiction.
  - assert (Hin' : EvRequest req o
                   = EvRequest (get_request (JStr u))
                       (http w (h ++ evf) (get_request (JStr u)))).
    { unfold caught in Hrun.
      destruct (is_RequestException e); injection Hrun; intros; subst;
        repeat (apply in_app_iff in Hin as [Hin|Hin]); try contradiction;
        simpl in Hin;
        repeat (destruct Hin as [Hin|Hin]; try discriminate Hin;
                try contradiction);
        symmetry; exact Hin. }
    injection Hin' as -> ->.
    destruct (checked_failed _ _ _ Ho Hfail) as [He Hreq].
    now apply (Hcaught e evf).
Qed.

Lemma failed_request_is_reported_witness :
  fst (process_item Sample.post_times_out (JObj Sample.cafe) [])
    = Ok (JObj (<["image" := JNull]> Sample.cafe)) /\
  exists before,
    snd (process_item Sample.post_times_out (JObj Sample.cafe) []) =
      (before ++
       [EvRequest (post_request Sample.accept_action
                     (collect_form_data Sample.accept_form))
          (Raise Timeout);
        EvPrint (error_msg (place_name_of Sample.cafe)
                   (exception_of (Raise Timeout)))])%list.
Proof.
  apply (failed_request_is_reported Sample.post_times_out Sample.cafe []).
  - apply surjective_pairing.
  - apply (nth_error_In _ 3). vm_compute. reflexivity.
  - reflexivity.
Defined.
